(** * Smart mirror: the refresh loops of [smartmirror.py]

    A shallow embedding of the three self-rescheduling widgets of
    [smartmirror.py] (clock, weather, news) and of the helpers they call,
    followed by the properties proved about them.

    The Python values the code handles are modelled first (JSON trees,
    numbers, the exceptions that can be raised), then Tk as a trace of
    widget calls, then each widget as a record of its attributes and each
    method as a computation in a small state-and-exception monad. *)

From Stdlib Require Import ZArith Floats Ascii String DecimalString Lia.
From stdpp Require Import gmap strings list.

Set Warnings "-inexact-float,-register-all".

Local Open Scope string_scope.

(** ** Python values *)

Module Py.

(** The exception classes that matter to the code. All derive from
    [Exception], so [except Exception] catches each of them. *)
Inductive exn :=
| RequestException   (* requests: connection, timeout, invalid URL *)
| JSONDecodeError    (* json / requests: the body is not JSON *)
| KeyError
| IndexError
| TypeError
| ValueError
| OverflowError
| AttributeError
| OSError            (* file or socket level failure *)
| LocaleError.       (* locale.Error: the locale setting is not supported *)

Inductive result (A : Type) :=
| Ok (a : A)
| Raise (e : exn).
Arguments Ok {A} a.
Arguments Raise {A} e.

Definition rbind {A B} (r : result A) (k : A -> result B) : result B :=
  match r with
  | Ok a => k a
  | Raise e => Raise e
  end.

(** What [json.loads] builds. A [JDict] lists the items of the dict; its keys
    are pairwise distinct, as the parser leaves them. Strings are kept as
    their UTF-8 bytes. *)
Inductive json :=
| JNull
| JBool (b : bool)
| JInt (z : Z)
| JFloat (f : float)
| JStr (s : string)
| JList (l : list json)
| JDict (d : list (string * json)).

(** The parts of the interpreter that are used but not re-implemented here. *)
Record Runtime := {
  float_repr : float -> string;      (* [repr] of a float *)
  container_repr : json -> string;   (* [repr] of a list or dict *)
  int_of_str : string -> option Z    (* [int(s)] for a str, [None] when it raises *)
}.

Fixpoint assoc (k : string) (d : list (string * json)) : option json :=
  match d with
  | [] => None
  | (k', v) :: d' => if String.eqb k k' then Some v else assoc k d'
  end.

(** [o[k]] for a string key [k]. *)
Definition getitem (o : json) (k : string) : result json :=
  match o with
  | JDict d =>
      match assoc k d with
      | Some v => Ok v
      | None => Raise KeyError
      end
  | _ => Raise TypeError
  end.

(** Number of bytes of the UTF-8 sequence that starts with byte [a]. *)
Definition utf8_width (a : ascii) : nat :=
  let n := nat_of_ascii a in
  if (n <? 192)%nat then 1%nat
  else if (n <? 224)%nat then 2%nat
  else if (n <? 240)%nat then 3%nat
  else 4%nat.

(** [o[0]]. *)
Definition getitem0 (o : json) : result json :=
  match o with
  | JList (x :: _) => Ok x
  | JList [] => Raise IndexError
  | JStr EmptyString => Raise IndexError
  | JStr (String a _ as s) => Ok (JStr (substring 0 (utf8_width a) s))
  | JDict _ => Raise KeyError
  | _ => Raise TypeError
  end.

(** Numbers as the arithmetic operators see them. *)
Inductive num :=
| PInt (z : Z)
| PFloat (f : float).

(** [float(z)]: nearest double, ties to even; too large raises. *)
Definition float_of_int (z : Z) : result float :=
  let f := SF2Prim (binary_normalize prec emax z 0 false) in
  if is_infinity f then Raise OverflowError else Ok f.

(** [int(f)]: truncation toward zero. *)
Definition int_of_float (f : float) : result Z :=
  match Prim2SF f with
  | S754_zero _ => Ok 0%Z
  | S754_infinity _ => Raise OverflowError
  | S754_nan => Raise ValueError
  | S754_finite s m e =>
      let a := if (0 <=? e)%Z then Z.shiftl (Z.pos m) e
               else Z.shiftr (Z.pos m) (- e) in
      Ok (if s then (- a)%Z else a)
  end.

Definition to_float (x : num) : result float :=
  match x with
  | PInt z => float_of_int z
  | PFloat f => Ok f
  end.

Definition arith (fz : Z -> Z -> Z) (ff : float -> float -> float)
    (x y : num) : result num :=
  match x, y with
  | PInt a, PInt b => Ok (PInt (fz a b))
  | _, _ =>
      rbind (to_float x) (fun a =>
      rbind (to_float y) (fun b => Ok (PFloat (ff a b))))
  end.

Definition sub := arith Z.sub PrimFloat.sub.
Definition add := arith Z.add PrimFloat.add.
Definition mul := arith Z.mul PrimFloat.mul.

Definition str_of_int (z : Z) : string :=
  NilZero.string_of_int (Z.to_int z).

Definition str_of_num (rt : Runtime) (x : num) : string :=
  match x with
  | PInt z => str_of_int z
  | PFloat f => float_repr rt f
  end.

(** [str(v)], which is also what [%s] and an f-string field produce. *)
Definition str (rt : Runtime) (v : json) : string :=
  match v with
  | JNull => "None"
  | JBool true => "True"
  | JBool false => "False"
  | JInt z => str_of_int z
  | JFloat f => float_repr rt f
  | JStr s => s
  | JList _ | JDict _ => container_repr rt v
  end.

(** [int(v)]. *)
Definition int (rt : Runtime) (v : json) : result Z :=
  match v with
  | JInt z => Ok z
  | JBool b => Ok (if b then 1 else 0)%Z
  | JFloat f => int_of_float f
  | JStr s =>
      match int_of_str rt s with
      | Some z => Ok z
      | None => Raise ValueError
      end
  | _ => Raise TypeError
  end.

(** Does the int [z] equal the float [f]? Compared exactly, as Python does. *)
Definition int_eq_float (z : Z) (f : float) : bool :=
  match Prim2SF f with
  | S754_zero _ => (z =? 0)%Z
  | S754_finite s m e =>
      let sgn (a : Z) := if s then (- a)%Z else a in
      if (0 <=? e)%Z then (z =? sgn (Z.shiftl (Z.pos m) e))%Z
      else ((Z.pos m mod 2 ^ (- e) =? 0) && (z =? sgn (Z.shiftr (Z.pos m) (- e))))%Z
  | _ => false
  end.

Definition as_num (v : json) : option num :=
  match v with
  | JBool b => Some (PInt (if b then 1 else 0))
  | JInt z => Some (PInt z)
  | JFloat f => Some (PFloat f)
  | _ => None
  end.

Definition num_eq (x y : num) : bool :=
  match x, y with
  | PInt a, PInt b => (a =? b)%Z
  | PFloat f, PFloat g => PrimFloat.eqb f g
  | PInt a, PFloat g => int_eq_float a g
  | PFloat f, PInt b => int_eq_float b f
  end.

(** The parser has one object for every NaN it reads, and inside a list or
    a dict two items that are the same object count as equal. *)
Definition same_nan (a b : json) : bool :=
  match a, b with
  | JFloat f, JFloat g => is_nan f && is_nan g
  | _, _ => false
  end.

(** [a == b] on parsed values. Numbers compare by value across bool, int
    and float; a NaN differs from everything, itself included, unless it
    is an item of a list or a dict; dicts compare as sets of items. *)
Fixpoint eq (a b : json) {struct a} : bool :=
  match a, b with
  | JNull, JNull => true
  | JStr s, JStr t => String.eqb s t
  | JList xs, JList ys =>
      (fix all2 (xs ys : list json) {struct xs} : bool :=
         match xs, ys with
         | [], [] => true
         | x :: xs', y :: ys' => (same_nan x y || eq x y) && all2 xs' ys'
         | _, _ => false
         end) xs ys
  | JDict dx, JDict dy =>
      (length dx =? length dy)%nat &&
      (fix sub_of (dx : list (string * json)) {struct dx} : bool :=
         match dx with
         | [] => true
         | (k, v) :: dx' =>
             match assoc k dy with
             | Some w => (same_nan v w || eq v w) && sub_of dx'
             | None => false
             end
         end) dx
  | _, _ =>
      match as_num a, as_num b with
      | Some x, Some y => num_eq x y
      | _, _ => false
      end
  end.

(** A dict key must be hashable: lists and dicts are not. *)
Definition hashable (v : json) : bool :=
  match v with
  | JList _ | JDict _ => false
  | _ => true
  end.

(** [d.get(key, None)] for a dict [d] whose keys are all strings. *)
Definition dict_get (d : gmap string string) (key : json) : result (option string) :=
  match key with
  | JStr s => Ok (d !! s)
  | _ => if hashable key then Ok None else Raise TypeError
  end.

(** [x or None] for [x] a str or [None]. *)
Definition or_None (x : option string) : option string :=
  match x with
  | Some "" => None
  | _ => x
  end.

End Py.

Import Py.

(** ** Constants of the module *)

Record Config := {
  UI_LOCALE : string;
  TIME_FORMAT : Z;
  DATE_FORMAT : string;
  NEWS_COUNTRY_CODE : option string;
  NEWS_URL : string;
  WEATHER_API_TOKEN : string;
  WEATHER_LANG : string;
  WEATHER_API_URL : string;
  GEOIP_API_TOKEN : string;
  LATITUDE : option float;
  LONGITUDE : option float
}.

(** The values the source file assigns. *)
Definition constants : Config := {|
  UI_LOCALE := "";
  TIME_FORMAT := 12;
  DATE_FORMAT := "%b %d, %Y";
  NEWS_COUNTRY_CODE := Some "es-AR";
  NEWS_URL := "https://news.google.com/rss?hl";
  WEATHER_API_TOKEN := "";
  WEATHER_LANG := "en";
  WEATHER_API_URL := "http://api.openweathermap.org/data/2.5/weather";
  GEOIP_API_TOKEN := "";
  LATITUDE := Some (-26.6316062)%float;
  LONGITUDE := Some (-54.1174863)%float
|}.

(** maps open weather icons *)
Definition icon_lookup : gmap string string :=
  list_to_map [
    ("01d", "assets/Sun.png");          (* clear sky day *)
    ("01n", "assets/Moon.png");         (* clear sky night *)
    ("02d", "assets/PartlySunny.png");  (* few clouds day *)
    ("02n", "assets/PartlyMoon.png");   (* few clouds night *)
    ("03d", "assets/Cloud.png");        (* scattered clouds day *)
    ("03n", "assets/Cloud.png");        (* scattered clouds night *)
    ("04d", "assets/Cloud.png");        (* broken clouds day *)
    ("04n", "assets/Cloud.png");        (* broken clouds night *)
    ("09d", "assets/Rain.png");         (* shower rain day *)
    ("09n", "assets/Rain.png");         (* shower rain night *)
    ("10d", "assets/Rain.png");         (* rain day *)
    ("10n", "assets/Rain.png");         (* rain night *)
    ("11d", "assets/Storm.png");        (* thunderstorm day *)
    ("11n", "assets/Storm.png");        (* thunderstorm night *)
    ("13d", "assets/Snow.png");         (* snow day *)
    ("13n", "assets/Snow.png");         (* snow night *)
    ("50d", "assets/Haze.png");         (* mist day *)
    ("50n", "assets/Haze.png")          (* mist night *)
  ].

(** ** Unit conversions (static methods of [Weather]) *)

(** This method converts kelvin to fahrenheit. *)
Definition convert_kelvin_to_fahrenheit (kelvin_temp : num) : result num :=
  rbind (Py.sub kelvin_temp (PInt 273)) (fun d =>
  rbind (Py.mul (PFloat 1.8) d) (fun p =>
  Py.add p (PInt 32))).

(** This method converts a temperature from Kelvin to Celsius. *)
Definition convert_kelvin_to_celsius (kelvin_temp : num) : result num :=
  Py.sub kelvin_temp (PInt 273).

(** ** Tk and the outside world *)

(** A [PhotoImage] made from an asset file resized to [width] x [height]. *)
Record photo := Photo { file : string; width : Z; height : Z }.

(** One entry of a parsed feed; [title] is [None] when the entry has no
    such attribute. *)
Record entry := Entry { title : option string }.

(** A [requests] response, by what [json.loads] makes of its body:
    [None] when the body is not JSON. *)
Record response := Response { body : option json }.

(** What the world answers during one run of a callback. *)
Record World := {
  http : string -> option response;       (* [None]: the request itself fails *)
  feed : string -> option (list entry);   (* [None]: fetching the feed raises *)
  image_ok : string -> bool;              (* can the asset be opened and decoded *)
  strftime : string -> string -> string;  (* locale, format: the current time *)
  locale_name : string -> option string   (* the name [setlocale] returns;
                                             [None]: the locale is not
                                             supported and it raises *)
}.

Inductive tkopt :=
| text (v : json)
| image (p : option photo).   (* [None] is [image=''] *)

(** The calls a callback makes, in order. *)
Inductive event :=
| Get (url : string)                  (* [requests.get(url)] *)
| Parse (url : string)                (* [feedparser.parse(url)] *)
| Open (path : string)                (* [Image.open(path)] *)
| Configure (lbl : string) (o : tkopt)  (* [self.lbl.config(...)] *)
| Destroy                             (* [widget.destroy()] *)
| Pack                                (* [headline.pack(...)] *)
| After (ms : Z) (callback : string)  (* [after(ms, self.callback)] *)
| PrintExc (e : exn)                  (* [traceback.print_exc()] *)
| Print (e : exn) (msg : string).     (* [print(f"Error: {e}" + msg)] *)

Definition is_config (ev : event) : bool :=
  match ev with
  | Configure _ _ => true
  | _ => false
  end.

Definition is_after (ev : event) : bool :=
  match ev with
  | After _ _ => true
  | _ => false
  end.

(** The redraw calls and the timers set, out of a trace. *)
Definition redraws (tr : list event) : list event := List.filter is_config tr.
Definition timers (tr : list event) : list event := List.filter is_after tr.

(** ** Computations: state, exceptions and a trace *)

Section Monad.
Context {S : Type}.

Definition M (A : Type) : Type := S -> result A * S * list event.

Definition ret {A} (a : A) : M A := fun s => (Ok a, s, []).

Definition bind {A B} (c : M A) (k : A -> M B) : M B :=
  fun s =>
    match c s with
    | (Ok a, s1, t1) =>
        match k a s1 with
        | (r, s2, t2) => (r, s2, (t1 ++ t2)%list)
        end
    | (Raise e, s1, t1) => (Raise e, s1, t1)
    end.

Definition raise {A} (e : exn) : M A := fun s => (Raise e, s, []).

Definition lift {A} (r : result A) : M A := fun s => (r, s, []).

Definition gets {A} (f : S -> A) : M A := fun s => (Ok (f s), s, []).

Definition modify (f : S -> S) : M unit := fun s => (Ok tt, f s, []).

Definition emit (ev : event) : M unit := fun s => (Ok tt, s, [ev]).

(** [try: c  except ...: h e]; [h] decides which exceptions it takes. *)
Definition try_except {A} (c : M A) (h : exn -> M A) : M A :=
  fun s =>
    match c s with
    | (Ok a, s1, t1) => (Ok a, s1, t1)
    | (Raise e, s1, t1) =>
        match h e s1 with
        | (r, s2, t2) => (r, s2, (t1 ++ t2)%list)
        end
    end.

(** [try: c  finally: f]. *)
Definition try_finally {A} (c : M A) (f : M unit) : M A :=
  fun s =>
    match c s with
    | (r, s1, t1) =>
        match f s1 with
        | (Ok _, s2, t2) => (r, s2, (t1 ++ t2)%list)
        | (Raise e, s2, t2) => (Raise e, s2, (t1 ++ t2)%list)
        end
    end.

(** [if b: c]. *)
Definition when (b : bool) (c : M unit) : M unit :=
  if b then c else ret tt.

(** [for x in xs: body x]. *)
Fixpoint for_each {A} (xs : list A) (body : A -> M unit) : M unit :=
  match xs with
  | [] => ret tt
  | x :: xs' => bind (body x) (fun _ => for_each xs' body)
  end.
End Monad.

Arguments M : clear implicits.

#[global] Instance M_ret {S} : MRet (M S) := @ret S.
#[global] Instance M_bind {S} : MBind (M S) := fun A B k c => bind c k.

Section World.
Context {S : Type} (world : World).

(** [requests.get(url)] *)
Definition requests_get (url : string) : M S response :=
  emit (Get url);;
  match http world url with
  | Some r => ret r
  | None => raise RequestException
  end.

(** [request.json()] and [json.loads(request.text)] *)
Definition json_loads (r : response) : M S json :=
  match body r with
  | Some j => ret j
  | None => raise JSONDecodeError
  end.

(** [ImageTk.PhotoImage(Image.open(path).resize((w, h), ...).convert('RGB'))] *)
Definition load_photo (path : string) (w h : Z) : M S photo :=
  emit (Open path);;
  if image_ok world path then ret (Photo path w h) else raise OSError.

(** [feedparser.parse(url).entries] *)
Definition feedparser_parse (url : string) : M S (list entry) :=
  emit (Parse url);;
  match feed world url with
  | Some es => ret es
  | None => raise OSError
  end.
End World.

(** The spaces that open the second line of a string literal continued
    with a backslash; they are part of the string. *)
Definition continuation : string := "                    ".

Definition is_None {A} (o : option A) : bool :=
  match o with
  | None => true
  | Some _ => false
  end.

(** An f-string field holding a module constant that is a float or [None]. *)
Definition str_coordinate (rt : Runtime) (c : option float) : string :=
  match c with
  | Some f => float_repr rt f
  | None => "None"
  end.

(** ** The weather widget *)

Module Weather.

(** The attributes of a [Weather] frame: the five cached values, then what
    each of its five labels shows. *)
Record t := {
  temperature : string;
  forecast : json;
  actual_location : json;
  currently : json;
  icon : string;
  temperature_lbl : json;
  icon_lbl : option photo;
  currently_lbl : json;
  forecast_lbl : json;
  actual_location_lbl : json
}.

(** [__init__], up to its call of [get_weather]. *)
Definition init : t := {|
  temperature := "";
  forecast := JStr "";
  actual_location := JStr "";
  currently := JStr "";
  icon := "";
  temperature_lbl := JStr "";
  icon_lbl := None;
  currently_lbl := JStr "";
  forecast_lbl := JStr "";
  actual_location_lbl := JStr ""
|}.

Definition set_temperature (v : string) (s : t) : t :=
  {| temperature := v; forecast := forecast s;
     actual_location := actual_location s; currently := currently s;
     icon := icon s; temperature_lbl := temperature_lbl s;
     icon_lbl := icon_lbl s; currently_lbl := currently_lbl s;
     forecast_lbl := forecast_lbl s;
     actual_location_lbl := actual_location_lbl s |}.

Definition set_forecast (v : json) (s : t) : t :=
  {| temperature := temperature s; forecast := v;
     actual_location := actual_location s; currently := currently s;
     icon := icon s; temperature_lbl := temperature_lbl s;
     icon_lbl := icon_lbl s; currently_lbl := currently_lbl s;
     forecast_lbl := forecast_lbl s;
     actual_location_lbl := actual_location_lbl s |}.

Definition set_actual_location (v : json) (s : t) : t :=
  {| temperature := temperature s; forecast := forecast s;
     actual_location := v; currently := currently s;
     icon := icon s; temperature_lbl := temperature_lbl s;
     icon_lbl := icon_lbl s; currently_lbl := currently_lbl s;
     forecast_lbl := forecast_lbl s;
     actual_location_lbl := actual_location_lbl s |}.

Definition set_currently (v : json) (s : t) : t :=
  {| temperature := temperature s; forecast := forecast s;
     actual_location := actual_location s; currently := v;
     icon := icon s; temperature_lbl := temperature_lbl s;
     icon_lbl := icon_lbl s; currently_lbl := currently_lbl s;
     forecast_lbl := forecast_lbl s;
     actual_location_lbl := actual_location_lbl s |}.

Definition set_icon (v : string) (s : t) : t :=
  {| temperature := temperature s; forecast := forecast s;
     actual_location := actual_location s; currently := currently s;
     icon := v; temperature_lbl := temperature_lbl s;
     icon_lbl := icon_lbl s; currently_lbl := currently_lbl s;
     forecast_lbl := forecast_lbl s;
     actual_location_lbl := actual_location_lbl s |}.

(** [self.lbl.config(...)], by label. Tk leaves out an option whose value
    is [None]: [config(text=None)] is a call that changes nothing. *)
Definition show (lbl : string) (o : tkopt) (s : t) : t :=
  let txt (name : string) (old : json) : json :=
    match o with
    | text v =>
        if String.eqb lbl name
        then match v with JNull => old | _ => v end
        else old
    | image _ => old
    end in
  {| temperature := temperature s; forecast := forecast s;
     actual_location := actual_location s; currently := currently s;
     icon := icon s;
     temperature_lbl := txt "temperature_lbl" (temperature_lbl s);
     icon_lbl :=
       match o with
       | image p => if String.eqb lbl "icon_lbl" then p else icon_lbl s
       | text _ => icon_lbl s
       end;
     currently_lbl := txt "currently_lbl" (currently_lbl s);
     forecast_lbl := txt "forecast_lbl" (forecast_lbl s);
     actual_location_lbl := txt "actual_location_lbl" (actual_location_lbl s) |}.

Definition config (lbl : string) (o : tkopt) : M t unit :=
  emit (Configure lbl o);; modify (show lbl o).

(** The local variables of [get_weather] that reach the labels. *)
Record reading := {
  temperature2 : string;
  currently2 : json;
  forecast2 : json;
  actual_location2 : json;
  icon2 : option string
}.

(** What the frame displays. *)
Definition displayed (s : t) : json * option photo * json * json * json :=
  (temperature_lbl s, icon_lbl s, currently_lbl s, forecast_lbl s,
   actual_location_lbl s).

Section Methods.
Variables (rt : Runtime) (cfg : Config) (world : World).

(** Get your ip. *)
Definition get_ip : M t json :=
  try_except
    (let ip_url := "http://jsonip.com/" in
     req ← requests_get world ip_url;
     ip_json ← json_loads req;
     lift (getitem ip_json "ip"))
    (fun e =>
       match e with
       | JSONDecodeError | KeyError =>
           emit (PrintExc e);;
           mret (JStr "Error: Cannot get ip.")
       | _ => raise e
       end).

(** The [if LATITUDE is None and LONGITUDE is None: ... else: ...] of
    [get_weather]: the URL of the weather request and, where the branch
    assigns it, [actual_location2]. *)
Definition locate : M t (string * option string) :=
  if is_None (LATITUDE cfg) && is_None (LONGITUDE cfg) then
    (* get actual_location *)
    ip ← get_ip;
    let actual_location_req_url :=
      "https://api.freegeoip.app/json" +:+ continuation +:+
      "/" +:+ str rt ip +:+ "?apikey=" +:+ GEOIP_API_TOKEN cfg in
    request ← requests_get world actual_location_req_url;
    actual_location_obj ← json_loads request;
    lat ← lift (getitem actual_location_obj "latitude");
    lon ← lift (getitem actual_location_obj "longitude");
    city ← lift (getitem actual_location_obj "city");
    region_code ← lift (getitem actual_location_obj "region_code");
    let actual_location2 := str rt city +:+ ", " +:+ str rt region_code in
    (* get weather *)
    let weather_req_url :=
      WEATHER_API_URL cfg +:+ "?lat=" +:+ str rt lat +:+ "&" +:+
      continuation +:+ "lon=" +:+ str rt lon +:+
      "&lang=" +:+ WEATHER_LANG cfg +:+
      "&appid=" +:+ WEATHER_API_TOKEN cfg in
    mret (weather_req_url, Some actual_location2)
  else
    (* get weather *)
    let weather_req_url :=
      WEATHER_API_URL cfg +:+
      "?lat=" +:+ str_coordinate rt (LATITUDE cfg) +:+
      "&lon=" +:+ str_coordinate rt (LONGITUDE cfg) +:+ "&" +:+
      continuation +:+ "lang=" +:+ WEATHER_LANG cfg +:+
      "&appid=" +:+ WEATHER_API_TOKEN cfg in
    mret (weather_req_url, None).

Definition degree_sign : string := "°".

(** [weather_obj['weather'][0]] *)
Definition weather0 (weather_obj : json) : result json :=
  rbind (getitem weather_obj "weather") getitem0.

(** The weather request and what the code reads out of its answer, from
    [request = requests.get(weather_req_url)] to the assignment of
    [icon2]. *)
Definition fetch (weather_req_url : string) : M t reading :=
  request ← requests_get world weather_req_url;
  weather_obj ← json_loads request;
  main ← lift (getitem weather_obj "main");
  temp ← lift (getitem main "temp");
  kelvin ← lift (Py.int rt temp);
  celsius_temp ← lift (convert_kelvin_to_celsius (PInt kelvin));
  let temperature2 := str_of_num rt celsius_temp +:+ degree_sign in
  currently2 ← lift (rbind (weather0 weather_obj) (fun w => getitem w "main"));
  forecast2 ← lift (rbind (weather0 weather_obj) (fun w => getitem w "description"));
  (* whatever [locate] assigned to [actual_location2] is replaced here *)
  actual_location2 ← lift (getitem weather_obj "name");
  icon_id ← lift (rbind (weather0 weather_obj) (fun w => getitem w "icon"));
  icon2 ← lift (dict_get icon_lookup icon_id);
  let icon2 := or_None icon2 in
  mret {| temperature2 := temperature2; currently2 := currently2;
          forecast2 := forecast2; actual_location2 := actual_location2;
          icon2 := icon2 |}.

(** The first half of the [try] of [get_weather]: up to [icon2]. *)
Definition extract : M t reading :=
  '(weather_req_url, _) ← locate;
  fetch weather_req_url.

(** The second half: from [if icon2 is not None:] to the end of the [try]. *)
Definition redraw (r : reading) : M t unit :=
  match icon2 r with
  | Some icon2 =>
      self_icon ← gets icon;
      when (negb (String.eqb self_icon icon2))
        (modify (set_icon icon2);;
         photo ← load_photo world icon2 100 100;
         config "icon_lbl" (image (Some photo)))
  | None =>
      (* remove image *)
      config "icon_lbl" (image None)
  end;;
  self_currently ← gets currently;
  when (negb (Py.eq self_currently (currently2 r)))
    (modify (set_currently (currently2 r));;
     config "currently_lbl" (text (currently2 r)));;
  self_forecast ← gets forecast;
  when (negb (Py.eq self_forecast (forecast2 r)))
    (modify (set_forecast (forecast2 r));;
     config "forecast_lbl" (text (forecast2 r)));;
  self_temperature ← gets temperature;
  when (negb (String.eqb self_temperature (temperature2 r)))
    (modify (set_temperature (temperature2 r));;
     config "temperature_lbl" (text (JStr (temperature2 r))));;
  self_actual_location ← gets actual_location;
  when (negb (Py.eq self_actual_location (actual_location2 r)))
    (if Py.eq (actual_location2 r) (JStr ", ") then
       modify (set_actual_location (JStr "Cannot Pinpoint Location"));;
       config "actual_location_lbl" (text (JStr "Cannot Pinpoint Location"))
     else
       modify (set_actual_location (actual_location2 r));;
       config "actual_location_lbl" (text (actual_location2 r))).

(** The body of the [try] of [get_weather]. *)
Definition get_weather_try : M t unit :=
  r ← extract;
  redraw r.

(** Get weather method. *)
Definition get_weather : M t unit :=
  try_except get_weather_try
    (fun e =>
       emit (PrintExc e);;
       emit (Print e ". Cannot get weather."));;
  emit (After 600000 "get_weather").
End Methods.

End Weather.

(** ** The locale of the process *)

Section Locale.
Context {S : Type} (world : World).
Context (LC_ALL : S -> string) (set_LC_ALL : string -> S -> S).

(** [locale.setlocale(locale.LC_ALL, name)]: sets the locale and returns
    its name, or raises [locale.Error] and leaves the locale as it was. *)
Definition locale_setlocale (name : string) : M S string :=
  match locale_name world name with
  | Some current => modify (set_LC_ALL current);; mret current
  | None => raise LocaleError
  end.

(** thread proof function to work with locale. The lock is not modelled:
    one thread runs every callback. When setting the locale raises, the
    generator raises before its [yield]: the body of the [with] does not
    run, and the [finally] sets the saved locale, which is the current one. *)
Definition setlocale {A} (name : string) (body : string -> M S A) : M S A :=
  saved ← gets LC_ALL;
  try_finally
    (current ← locale_setlocale name; body current)
    (modify (set_LC_ALL saved)).

(** [time.strftime(format)] *)
Definition time_strftime (format : string) : M S string :=
  lc ← gets LC_ALL;
  mret (strftime world lc format).
End Locale.

(** ** The clock widget *)

Module Clock.

(** The attributes of a [Clock] frame, and the locale of the process. *)
Record t := {
  LC_ALL : string;
  time_old : string;
  day_of_week_old : string;
  date_old : string;
  time_lbl : json;
  day_of_wk_lbl : json;
  date_lbl : json
}.

(** [__init__], up to its call of [tick], in a process whose locale is [lc]. *)
Definition init (lc : string) : t := {|
  LC_ALL := lc;
  time_old := "";
  day_of_week_old := "";
  date_old := "";
  time_lbl := JStr "";
  day_of_wk_lbl := JStr "";
  date_lbl := JStr ""
|}.

Definition set_LC_ALL (v : string) (s : t) : t :=
  {| LC_ALL := v; time_old := time_old s;
     day_of_week_old := day_of_week_old s; date_old := date_old s;
     time_lbl := time_lbl s; day_of_wk_lbl := day_of_wk_lbl s;
     date_lbl := date_lbl s |}.

Definition set_time_old (v : string) (s : t) : t :=
  {| LC_ALL := LC_ALL s; time_old := v;
     day_of_week_old := day_of_week_old s; date_old := date_old s;
     time_lbl := time_lbl s; day_of_wk_lbl := day_of_wk_lbl s;
     date_lbl := date_lbl s |}.

Definition set_day_of_week_old (v : string) (s : t) : t :=
  {| LC_ALL := LC_ALL s; time_old := time_old s;
     day_of_week_old := v; date_old := date_old s;
     time_lbl := time_lbl s; day_of_wk_lbl := day_of_wk_lbl s;
     date_lbl := date_lbl s |}.

Definition set_date_old (v : string) (s : t) : t :=
  {| LC_ALL := LC_ALL s; time_old := time_old s;
     day_of_week_old := day_of_week_old s; date_old := v;
     time_lbl := time_lbl s; day_of_wk_lbl := day_of_wk_lbl s;
     date_lbl := date_lbl s |}.

(** [self.lbl.config(text=v)], by label. *)
Definition show (lbl : string) (v : json) (s : t) : t :=
  let txt (name : string) (old : json) : json :=
    if String.eqb lbl name then v else old in
  {| LC_ALL := LC_ALL s; time_old := time_old s;
     day_of_week_old := day_of_week_old s; date_old := date_old s;
     time_lbl := txt "time_lbl" (time_lbl s);
     day_of_wk_lbl := txt "day_of_wk_lbl" (day_of_wk_lbl s);
     date_lbl := txt "date_lbl" (date_lbl s) |}.

Definition config (lbl : string) (v : string) : M t unit :=
  emit (Configure lbl (text (JStr v)));; modify (show lbl (JStr v)).

Section Methods.
Variables (cfg : Config) (world : World).

(** Tick the clock. *)
Definition tick : M t unit :=
  setlocale world LC_ALL set_LC_ALL (UI_LOCALE cfg) (fun _ =>
    time_updated ←
      (if (TIME_FORMAT cfg =? 12)%Z
       then time_strftime world LC_ALL "%I:%M%p"  (* hour in 12h format *)
       else time_strftime world LC_ALL "%H:%M");  (* hour in 24h format *)
    day_of_week_updated ← time_strftime world LC_ALL "%A";
    date_updated ← time_strftime world LC_ALL (DATE_FORMAT cfg);
    (* if time string has changed, update it *)
    self_time_old ← gets time_old;
    when (negb (String.eqb time_updated self_time_old))
      (modify (set_time_old time_updated);;
       config "time_lbl" time_updated);;
    self_day_of_week_old ← gets day_of_week_old;
    when (negb (String.eqb day_of_week_updated self_day_of_week_old))
      (modify (set_day_of_week_old day_of_week_updated);;
       config "day_of_wk_lbl" day_of_week_updated);;
    self_date_old ← gets date_old;
    when (negb (String.eqb date_updated self_date_old))
      (modify (set_date_old date_updated);;
       config "date_lbl" date_updated);;
    (* calls itself every 200 milliseconds *)
    emit (After 200 "tick")).
End Methods.

End Clock.

(** ** The news widget *)

Module News.

(** A [NewsHeadline] frame, child of [headlines_container]: its icon and
    its text once [__init__] has made them, and whether it was packed. *)
Record NewsHeadline := {
  icon_lbl : option photo;
  event_name_lbl : option string;
  packed : bool
}.

#[global] Instance photo_eq_dec : EqDecision photo.
Proof. solve_decision. Defined.

#[global] Instance NewsHeadline_eq_dec : EqDecision NewsHeadline.
Proof. solve_decision. Defined.

(** The attributes of a [News] frame that change: the children of
    [headlines_container], oldest first. *)
Record t := { headlines_container : list NewsHeadline }.

(** [__init__], up to its call of [get_headlines]. *)
Definition init : t := {| headlines_container := [] |}.

(** [widget.destroy()]: the widget leaves its parent. *)
Fixpoint remove (w : NewsHeadline) (ws : list NewsHeadline) : list NewsHeadline :=
  match ws with
  | [] => []
  | x :: ws' => if decide (x = w) then ws' else x :: remove w ws'
  end.

Definition destroy (w : NewsHeadline) : M t unit :=
  emit Destroy;;
  modify (fun s => {| headlines_container := remove w (headlines_container s) |}).

(** A frame just created in the container. *)
Definition new_frame : M t unit :=
  modify (fun s =>
    {| headlines_container :=
         (headlines_container s ++
          [{| icon_lbl := None; event_name_lbl := None; packed := false |}])%list |}).

(** Change the newest child of the container. *)
Definition newest (f : NewsHeadline -> NewsHeadline) (s : t) : t :=
  match List.rev (headlines_container s) with
  | [] => s
  | w :: older => {| headlines_container := List.rev (f w :: older) |}
  end.

(** The rows on screen: icon and text of the packed children, in order. *)
Definition displayed (s : t) : list (option photo * option string) :=
  List.map (fun w => (icon_lbl w, event_name_lbl w))
    (List.filter packed (headlines_container s)).

Section Methods.
Variables (cfg : Config) (world : World).

(** Create news headline: [NewsHeadline(parent, event_name)]. *)
Definition NewsHeadline_init (event_name : string) : M t unit :=
  new_frame;;
  photo ← load_photo world "assets/Newspaper.png" 25 25;
  modify (newest (fun w =>
    {| icon_lbl := Some photo; event_name_lbl := Some event_name;
       packed := packed w |})).

(** [headline.pack(side=TOP, anchor=W)] on the headline just created. *)
Definition pack : M t unit :=
  emit Pack;;
  modify (newest (fun w =>
    {| icon_lbl := icon_lbl w; event_name_lbl := event_name_lbl w;
       packed := true |})).

(** [post.title] *)
Definition post_title (post : entry) : M t string :=
  match title post with
  | Some s => mret s
  | None => raise AttributeError
  end.

(** The body of the [try] of [get_headlines]. *)
Definition get_headlines_try : M t unit :=
  (* remove all children *)
  children ← gets headlines_container;
  for_each children destroy;;
  let headlines_url :=
    match NEWS_COUNTRY_CODE cfg with
    | None => NEWS_URL cfg +:+ "=en-US"
    | Some code => NEWS_URL cfg +:+ "=" +:+ code
    end in
  entries ← feedparser_parse world headlines_url;
  for_each (take 5 entries) (fun post =>
    event_name ← post_title post;
    NewsHeadline_init event_name;;
    pack).

Definition get_headlines : M t unit :=
  try_except get_headlines_try
    (fun e =>
       emit (PrintExc e);;
       emit (Print e ". Cannot get news."));;
  emit (After 600000 "get_headlines").
End Methods.

End News.

(** ** Vocabulary of the statements *)

(** The three components of a run. *)
Definition outcome {S A} (c : M S A) (s : S) : result A := (c s).1.1.
Definition final {S A} (c : M S A) (s : S) : S := (c s).1.2.
Definition trace {S A} (c : M S A) (s : S) : list event := (c s).2.

(** [c] leaves the state as it found it. *)
Definition reads_only {S A} (c : M S A) : Prop :=
  forall s, final c s = s.

(** [c] never raises. *)
Definition never_raises {S A} (c : M S A) : Prop :=
  forall s, exists a, outcome c s = Ok a.

(** Every call [c] makes satisfies [P]. *)
Definition emits {S A} (P : event -> Prop) (c : M S A) : Prop :=
  forall s, Forall P (trace c s).

Definition not_after (ev : event) : Prop := is_after ev = false.
Definition not_config (ev : event) : Prop := is_config ev = false.

Definition is_str (v : json) : bool :=
  match v with
  | JStr _ => true
  | _ => false
  end.

(** The poll that starts in state [s] reaches its weather request, and the
    answer to it is the JSON value [weather_obj]. *)
Definition answered (rt : Runtime) (cfg : Config) (world : World)
    (s : Weather.t) (weather_obj : json) : Prop :=
  exists url loc tr,
    Weather.locate rt cfg world s = (Ok (url, loc), s, tr) /\
    http world url = Some (Response (Some weather_obj)).

(** The poll that starts in state [s] takes the geolocation path: it first
    asks for the public address. *)
Definition geolocates (rt : Runtime) (cfg : Config) (world : World)
    (s : Weather.t) : Prop :=
  exists tr, trace (Weather.locate rt cfg world) s = Get "http://jsonip.com/" :: tr.

(** [weather_obj['main']['temp']] and [weather_obj['weather'][0]['icon']] *)
Definition main_temp (weather_obj : json) : result json :=
  rbind (getitem weather_obj "main") (fun main => getitem main "temp").
Definition icon_code (weather_obj : json) : result json :=
  rbind (Weather.weather0 weather_obj) (fun w => getitem w "icon").

(** The child [get_headlines] builds and packs for a title. *)
Definition row (event_name : string) : News.NewsHeadline :=
  {| News.icon_lbl := Some (Photo "assets/Newspaper.png" 25 25);
     News.event_name_lbl := Some event_name;
     News.packed := true |}.

(** The URL [get_headlines] fetches. *)
Definition headlines_url (cfg : Config) : string :=
  match NEWS_COUNTRY_CODE cfg with
  | None => NEWS_URL cfg +:+ "=en-US"
  | Some code => NEWS_URL cfg +:+ "=" +:+ code
  end.

(** ** Sample inputs *)

Module Sample.

(** A runtime that knows the [repr] of the two coordinates of the module
    and of no other float or container, and reads no string as an int. *)
Definition rt : Runtime := {|
  float_repr := fun f =>
    if PrimFloat.eqb f (-26.6316062) then "-26.6316062"
    else if PrimFloat.eqb f (-54.1174863) then "-54.1174863"
    else "<float>";
  container_repr := fun _ => "<container>";
  int_of_str := fun _ => None
|}.

(** The module constants with both coordinates unset. *)
Definition unset : Config := {|
  UI_LOCALE := UI_LOCALE constants;
  TIME_FORMAT := TIME_FORMAT constants;
  DATE_FORMAT := DATE_FORMAT constants;
  NEWS_COUNTRY_CODE := NEWS_COUNTRY_CODE constants;
  NEWS_URL := NEWS_URL constants;
  WEATHER_API_TOKEN := WEATHER_API_TOKEN constants;
  WEATHER_LANG := WEATHER_LANG constants;
  WEATHER_API_URL := WEATHER_API_URL constants;
  GEOIP_API_TOKEN := GEOIP_API_TOKEN constants;
  LATITUDE := None;
  LONGITUDE := None
|}.

(** A weather answer with the five fields the code reads. *)
Definition weather_json (temp main : json) (description icon name : string) : json :=
  JDict [
    ("weather", JList [JDict [("main", main);
                              ("description", JStr description);
                              ("icon", JStr icon)]]);
    ("main", JDict [("temp", temp)]);
    ("name", JStr name)
  ].

Definition entries (titles : list string) : list entry :=
  List.map (fun s => Entry (Some s)) titles.

(** A world where every request gets the answer [r], assets load or not,
    and the feed has the entries [es] ([None]: fetching it raises). *)
Definition world (r : option response) (assets : bool)
    (es : option (list entry)) : World := {|
  http := fun _ => r;
  feed := fun _ => es;
  image_ok := fun _ => assets;
  strftime := fun lc format => lc +:+ ":" +:+ format;
  locale_name := fun name =>
    Some (if String.eqb name "" then "es_AR.UTF-8" else name)
|}.

(** Every request is answered by the JSON value [j]; every asset loads. *)
Definition answering (j : json) (es : option (list entry)) : World :=
  world (Some (Response (Some j))) true es.

(** No network. *)
Definition offline : World := world None true None.

(** Every request is answered by a body that is not JSON. *)
Definition garbled : World := world (Some (Response None)) true None.

(** No network, on a system that supports no locale setting the program
    asks for. *)
Definition unsupported_locale : World := {|
  http := fun _ => None;
  feed := fun _ => None;
  image_ok := fun _ => true;
  strftime := fun lc format => lc +:+ ":" +:+ format;
  locale_name := fun _ => None
|}.

(** Every request is answered by [j], and no asset can be opened. *)
Definition without_assets (j : json) : World :=
  world (Some (Response (Some j))) false None.

Definition clouds : json :=
  weather_json (JFloat 300.9) (JStr "Clouds") "few clouds" "02d" "Posadas".

(** The same answer with an icon code that is not in the table. *)
Definition unknown_icon : json :=
  weather_json (JFloat 300.9) (JStr "Clouds") "few clouds" "99x" "Posadas".

(** The same answer from a place named by a comma and a space. *)
Definition unnamed_place : json :=
  weather_json (JFloat 300.9) (JStr "Clouds") "few clouds" "02d" ", ".

(** The same answer with a NaN where the condition should be. *)
Definition nan_condition : json :=
  weather_json (JFloat 300.9) (JFloat nan) "few clouds" "02d" "Posadas".

(** The same answer with a null where the condition should be. *)
Definition null_condition : json :=
  weather_json (JFloat 300.9) JNull "few clouds" "02d" "Posadas".

(** What the code reads out of [clouds]. *)
Definition clouds_reading : Weather.reading := {|
  Weather.temperature2 := "27°";
  Weather.currently2 := JStr "Clouds";
  Weather.forecast2 := JStr "few clouds";
  Weather.actual_location2 := JStr "Posadas";
  Weather.icon2 := Some "assets/PartlySunny.png"
|}.

(** A world for the geolocation path: the address service answers [ip],
    the geolocation service answers with a blank city and region, the
    weather service answers [clouds]. *)
Definition geolocated (ip : option json) : World := {|
  http := fun url =>
    if String.eqb url "http://jsonip.com/" then Some (Response ip)
    else if String.prefix "https://api.freegeoip.app/json" url then
      Some (Response (Some (JDict [("latitude", JInt (-27));
                                   ("longitude", JInt (-55));
                                   ("city", JStr "");
                                   ("region_code", JStr "")])))
    else Some (Response (Some clouds));
  feed := fun _ => None;
  image_ok := fun _ => true;
  strftime := fun lc format => lc +:+ ":" +:+ format;
  locale_name := fun name => Some name
|}.

(** The weather frame after one poll in [world], from [__init__]. *)
Definition after_poll_in (world : World) : Weather.t :=
  final (Weather.get_weather rt constants world) Weather.init.

(** The weather frame after one poll in the world that answers [j]. *)
Definition after_poll (j : json) : Weather.t :=
  after_poll_in (answering j None).

(** The news frame after one poll of a feed with the given titles. *)
Definition after_headlines (titles : list string) : News.t :=
  final (News.get_headlines constants (answering clouds (Some (entries titles))))
        News.init.

End Sample.

(** ** The calendar widget *)

Module Calendar.

(** A [CalendarEvent] frame, child of [calendar_event_container]: the text
    of its label, and whether it was packed. *)
Record CalendarEvent := {
  event_name_lbl : string;
  packed : bool
}.

#[global] Instance CalendarEvent_eq_dec : EqDecision CalendarEvent.
Proof. solve_decision. Defined.

(** The attributes of a [Calendar] frame that change: the children of
    [calendar_event_container], oldest first. *)
Record t := { calendar_event_container : list CalendarEvent }.

(** [__init__], up to its call of [get_events]. *)
Definition init : t := {| calendar_event_container := [] |}.

(** [widget.destroy()]: the widget leaves its parent. *)
Fixpoint remove (w : CalendarEvent) (ws : list CalendarEvent) : list CalendarEvent :=
  match ws with
  | [] => []
  | x :: ws' => if decide (x = w) then ws' else x :: remove w ws'
  end.

Definition destroy (w : CalendarEvent) : M t unit :=
  emit Destroy;;
  modify (fun s =>
    {| calendar_event_container := remove w (calendar_event_container s) |}).

(** [CalendarEvent(parent, event_name)] *)
Definition CalendarEvent_init (event_name : string) : M t unit :=
  modify (fun s =>
    {| calendar_event_container :=
         (calendar_event_container s ++
          [{| event_name_lbl := event_name; packed := false |}])%list |}).

(** [calendar_event.pack(side=TOP, anchor=E)] on the event just created. *)
Definition pack : M t unit :=
  emit Pack;;
  modify (fun s =>
    match List.rev (calendar_event_container s) with
    | [] => s
    | w :: older =>
        {| calendar_event_container :=
             List.rev ({| event_name_lbl := event_name_lbl w; packed := true |}
                       :: older) |}
    end).

Definition get_events : M t unit :=
  (* remove all children *)
  children ← gets calendar_event_container;
  for_each children destroy;;
  (* [CalendarEvent(self.calendar_event_container)]: the name defaults to
     "Event 1" *)
  CalendarEvent_init "Event 1";;
  pack.

End Calendar.

(** ** The window *)

(** [c], run on the part of a larger state that [get] reads and [set]
    writes: a method of a widget that an attribute of the window holds. *)
Definition zoom {S T A} (get : T -> S) (set : S -> T -> T) (c : M S A) : M T A :=
  fun t =>
    match c (get t) with
    | (r, s', tr) => (r, set s' t, tr)
    end.

Module FullscreenWindow.

(** The attributes of a [FullscreenWindow] that change, the "-fullscreen"
    attribute of its Tk window, and the methods bound to key sequences,
    the latest binding first. *)
Record t := {
  state : bool;
  fullscreen : bool;
  bindings : list (string * string);
  clock : Clock.t;
  weather : Weather.t;
  news : News.t
}.

(** A window before [__init__] has run, in a process whose locale is [lc]. *)
Definition blank (lc : string) : t := {|
  state := false;
  fullscreen := false;
  bindings := [];
  clock := Clock.init lc;
  weather := Weather.init;
  news := News.init
|}.

Definition set_state (v : bool) (w : t) : t :=
  {| state := v; fullscreen := fullscreen w; bindings := bindings w;
     clock := clock w; weather := weather w; news := news w |}.

Definition set_fullscreen (v : bool) (w : t) : t :=
  {| state := state w; fullscreen := v; bindings := bindings w;
     clock := clock w; weather := weather w; news := news w |}.

Definition set_clock (v : Clock.t) (w : t) : t :=
  {| state := state w; fullscreen := fullscreen w; bindings := bindings w;
     clock := v; weather := weather w; news := news w |}.

Definition set_weather (v : Weather.t) (w : t) : t :=
  {| state := state w; fullscreen := fullscreen w; bindings := bindings w;
     clock := clock w; weather := v; news := news w |}.

Definition set_news (v : News.t) (w : t) : t :=
  {| state := state w; fullscreen := fullscreen w; bindings := bindings w;
     clock := clock w; weather := weather w; news := v |}.

(** [self.tk.bind(sequence, self.method)] *)
Definition bind_key (sequence method : string) : M t unit :=
  modify (fun w =>
    {| state := state w; fullscreen := fullscreen w;
       bindings := (sequence, method) :: bindings w;
       clock := clock w; weather := weather w; news := news w |}).

(** [self.tk.attributes("-fullscreen", v)] *)
Definition attributes_fullscreen (v : bool) : M t unit :=
  modify (set_fullscreen v).

(** Toogle fullscreen status. *)
Definition toggle_fullscreen : M t string :=
  self_state ← gets state;
  modify (set_state (negb self_state));;  (* Just toggling the boolean *)
  self_state ← gets state;
  attributes_fullscreen self_state;;
  mret "break".

(** End fullscreen status. *)
Definition end_fullscreen : M t string :=
  modify (set_state false);;
  attributes_fullscreen false;;
  mret "break".

Section Methods.
Variables (rt : Runtime) (cfg : Config) (world : World).

(** [__init__]: the constructor of each widget ends by calling the method
    that polls. *)
Definition __init__ : M t unit :=
  modify (set_state false);;
  bind_key "<Return>" "toggle_fullscreen";;
  bind_key "<Escape>" "end_fullscreen";;
  (* clock *)
  zoom clock set_clock (Clock.tick cfg world);;
  (* weather *)
  zoom weather set_weather (Weather.get_weather rt cfg world);;
  (* news *)
  zoom news set_news (News.get_headlines cfg world).

(** The callback that a timer names. *)
Definition callback (name : string) : M t unit :=
  if String.eqb name "tick" then
    zoom clock set_clock (Clock.tick cfg world)
  else if String.eqb name "get_weather" then
    zoom weather set_weather (Weather.get_weather rt cfg world)
  else if String.eqb name "get_headlines" then
    zoom news set_news (News.get_headlines cfg world)
  else mret tt.
End Methods.

(** The method that a binding names. *)
Definition handler (name : string) : M t string :=
  if String.eqb name "toggle_fullscreen" then toggle_fullscreen
  else if String.eqb name "end_fullscreen" then end_fullscreen
  else mret "".

Fixpoint bound (sequence : string) (bs : list (string * string)) : option string :=
  match bs with
  | [] => None
  | (k, method) :: bs' => if String.eqb sequence k then Some method else bound sequence bs'
  end.

End FullscreenWindow.

(** ** The main loop *)

(** [w.tk.mainloop()]: Tk keeps the timers that [after] has set and runs the
    callback of one when it is due; a key press runs the method bound to
    it. Which of the pending timers is due next depends on how long the
    callbacks take, so a run of the loop is told which one fires. Tk
    reports an exception that a callback raises and goes on: the loop
    keeps what the callback did until then. *)
Module Mainloop.

Record t := {
  window : FullscreenWindow.t;
  pending : list event      (* the timers set and not yet fired *)
}.

Inductive happening :=
| Timer (i : nat)            (* the i-th pending timer is due *)
| KeyPress (sequence : string).

Section Loop.
Variables (rt : Runtime) (cfg : Config).

(** [w = FullscreenWindow()]. When the constructor raises, the program
    ends there and the loop does not run: [start] is then the window as far
    as it was built, with the timers set until then. *)
Definition start (lc : string) (world : World) : t :=
  match FullscreenWindow.__init__ rt cfg world (FullscreenWindow.blank lc) with
  | (_, w, tr) => {| window := w; pending := timers tr |}
  end.

Definition step (p : t) (now : World * happening) : t :=
  match now.2 with
  | Timer i =>
      match pending p !! i with
      | Some (After _ name) =>
          match FullscreenWindow.callback rt cfg now.1 name (window p) with
          | (_, w, tr) =>
              {| window := w; pending := (delete i (pending p) ++ timers tr)%list |}
          end
      | _ => p
      end
  | KeyPress sequence =>
      match FullscreenWindow.bound sequence (FullscreenWindow.bindings (window p)) with
      | Some method =>
          match FullscreenWindow.handler method (window p) with
          | (_, w, tr) => {| window := w; pending := (pending p ++ timers tr)%list |}
          end
      | None => p
      end
  end.

Definition mainloop (p : t) (run : list (World * happening)) : t :=
  foldl step p run.
End Loop.

End Mainloop.

(** ** More vocabulary *)

(** The weather frame after a poll in each of the worlds, in turn. *)
Definition polls (rt : Runtime) (cfg : Config) (worlds : list World)
    (s : Weather.t) : Weather.t :=
  foldl (fun s world => final (Weather.get_weather rt cfg world) s) s worlds.

(** The clock after a tick in each of the worlds, in turn. *)
Definition ticks (cfg : Config) (worlds : list World) (s : Clock.t) : Clock.t :=
  foldl (fun s world => final (Clock.tick cfg world) s) s worlds.

(** Each text label of the weather frame shows what the frame has cached
    for it, unless the cached value is [None], which Tk does not show; and
    the cached location is not a comma and a space. *)
Definition synced (s : Weather.t) : Prop :=
  Weather.temperature_lbl s = JStr (Weather.temperature s) /\
  (Weather.currently s <> JNull ->
   Weather.currently_lbl s = Weather.currently s) /\
  (Weather.forecast s <> JNull ->
   Weather.forecast_lbl s = Weather.forecast s) /\
  (Weather.actual_location s <> JNull ->
   Weather.actual_location_lbl s = Weather.actual_location s) /\
  Py.eq (Weather.actual_location s) (JStr ", ") = false.

(** The titles of the posts up to the first one that has none. *)
Fixpoint titled_prefix (posts : list entry) : list string :=
  match posts with
  | [] => []
  | post :: posts' =>
      match title post with
      | Some s => s :: titled_prefix posts'
      | None => []
      end
  end.

(** The three strings a tick formats: the time, the day of the week and
    the date, in the locale that [setlocale] sets. [None]: setting the
    locale raises, and the tick formats nothing. *)
Definition formatted (cfg : Config) (world : World)
    : option (string * string * string) :=
  match locale_name world (UI_LOCALE cfg) with
  | Some current =>
      Some (strftime world current
              (if (TIME_FORMAT cfg =? 12)%Z then "%I:%M%p" else "%H:%M"),
            strftime world current "%A",
            strftime world current (DATE_FORMAT cfg))
  | None => None
  end.

(** Can the locale of the configuration be set in [world]? *)
Definition locale_supported (cfg : Config) (world : World) : bool :=
  match locale_name world (UI_LOCALE cfg) with
  | Some _ => true
  | None => false
  end.

Definition is_open (ev : event) : bool :=
  match ev with
  | Open _ => true
  | _ => false
  end.

Definition is_get (ev : event) : bool :=
  match ev with
  | Get _ => true
  | _ => false
  end.

(** Each label of the clock shows what the clock has cached for it. *)
Definition clock_synced (s : Clock.t) : Prop :=
  Clock.time_lbl s = JStr (Clock.time_old s) /\
  Clock.day_of_wk_lbl s = JStr (Clock.day_of_week_old s) /\
  Clock.date_lbl s = JStr (Clock.date_old s).

(** Is [now] a press of the key [sequence]? *)
Definition is_press (sequence : string) (now : World * Mainloop.happening) : bool :=
  match now.2 with
  | Mainloop.KeyPress k => String.eqb k sequence
  | Mainloop.Timer _ => false
  end.

(** How many times [sequence] is pressed during [run]. *)
Definition presses (sequence : string) (run : list (World * Mainloop.happening)) : nat :=
  length (List.filter (is_press sequence) run).


(** What stays true of the window while the loop runs: the two keys are
    bound, and the window is full screen when its [state] says so. *)
Definition steady (p : Mainloop.t) : Prop :=
  FullscreenWindow.bindings (Mainloop.window p) =
    [("<Escape>", "end_fullscreen"); ("<Return>", "toggle_fullscreen")] /\
  FullscreenWindow.fullscreen (Mainloop.window p) =
    FullscreenWindow.state (Mainloop.window p).


(** * Properties *)

(** Unfold one run down to the answers of the world. *)
Ltac run :=
  cbv [mbind M_bind bind mret M_ret ret raise lift gets modify emit when
       try_except try_finally requests_get json_loads load_photo
       feedparser_parse outcome final trace].

(** ** Runs of composed computations *)

Section MonadFacts.
Context {S : Type}.
Implicit Types (s : S) (P : event -> Prop).

Lemma run_bind {A B} (c : M S A) (k : A -> M S B) s :
  (c ≫= k) s =
  match c s with
  | (Ok a, s1, t1) => let '(r, s2, t2) := k a s1 in (r, s2, (t1 ++ t2)%list)
  | (Raise e, s1, t1) => (Raise e, s1, t1)
  end.
Proof. reflexivity. Qed.

Lemma bind_ok {A B} (c : M S A) (k : A -> M S B) s a s1 t1 :
  c s = (Ok a, s1, t1) ->
  (c ≫= k) s = ((k a s1).1.1, (k a s1).1.2, (t1 ++ (k a s1).2)%list).
Proof. intros H. rewrite run_bind, H. by destruct (k a s1) as [[??]?]. Qed.

Lemma bind_raise {A B} (c : M S A) (k : A -> M S B) s e s1 t1 :
  c s = (Raise e, s1, t1) -> (c ≫= k) s = (Raise e, s1, t1).
Proof. intros H. by rewrite run_bind, H. Qed.

Lemma bind_inv {A B} (c : M S A) (k : A -> M S B) s r s2 tr :
  (c ≫= k) s = (r, s2, tr) ->
  (exists e, c s = (Raise e, s2, tr) /\ r = Raise e) \/
  (exists a s1 t1 t2,
     c s = (Ok a, s1, t1) /\ k a s1 = (r, s2, t2) /\ tr = (t1 ++ t2)%list).
Proof.
  rewrite run_bind. destruct (c s) as [[[a|e] s1] t1].
  - destruct (k a s1) as [[r' s2'] t2] eqn:Hk. intros [= <- <- <-].
    right. by exists a, s1, t1, t2.
  - intros [= <- <- <-]. left. by exists e.
Qed.

Lemma run_split {A} (c : M S A) s :
  c s = (outcome c s, final c s, trace c s).
Proof. unfold outcome, final, trace. by destruct (c s) as [[??]?]. Qed.

Lemma run_seq {A B} (c : M S A) (k : A -> M S B) s a s1 t1 r s2 t2 :
  c s = (Ok a, s1, t1) -> k a s1 = (r, s2, t2) ->
  (c ≫= k) s = (r, s2, (t1 ++ t2)%list).
Proof. intros Hc Hk. by rewrite run_bind, Hc, Hk. Qed.

Lemma trace_bind {A B} (c : M S A) (k : A -> M S B) s :
  exists tr, trace (c ≫= k) s = (trace c s ++ tr)%list.
Proof.
  unfold trace. rewrite run_bind.
  destruct (c s) as [[[a|e] s1] t1]; simpl.
  - destruct (k a s1) as [[??] t2]. simpl. eauto.
  - exists []. by rewrite app_nil_r.
Qed.

Lemma requests_get_run world url s :
  requests_get (S:=S) world url s =
  match http world url with
  | Some r => (Ok r, s, [Get url])
  | None => (Raise RequestException, s, [Get url])
  end.
Proof. unfold requests_get. run. by destruct (http world url). Qed.

(** *** Computations that leave the state alone *)

Lemma reads_only_ret {A} (a : A) : reads_only (mret a : M S A).
Proof. done. Qed.

Lemma reads_only_raise {A} e : reads_only (raise e : M S A).
Proof. done. Qed.

Lemma reads_only_lift {A} (r : result A) : reads_only (lift r : M S A).
Proof. done. Qed.

Lemma reads_only_gets {A} (f : S -> A) : reads_only (gets f).
Proof. done. Qed.

Lemma reads_only_emit ev : reads_only (emit ev : M S unit).
Proof. done. Qed.

Lemma reads_only_bind {A B} (c : M S A) (k : A -> M S B) :
  reads_only c -> (forall a, reads_only (k a)) -> reads_only (c ≫= k).
Proof.
  intros Hc Hk s. unfold final. rewrite run_bind.
  specialize (Hc s). unfold final in Hc.
  destruct (c s) as [[[a|e] s1] t1]; simpl in *; subst; [|done].
  specialize (Hk a s). unfold final in Hk.
  by destruct (k a s) as [[??]?].
Qed.

Lemma reads_only_try_except {A} (c : M S A) (h : exn -> M S A) :
  reads_only c -> (forall e, reads_only (h e)) -> reads_only (try_except c h).
Proof.
  intros Hc Hh s. unfold final, try_except.
  specialize (Hc s). unfold final in Hc.
  destruct (c s) as [[[a|e] s1] t1]; simpl in *; subst; [done|].
  specialize (Hh e s). unfold final in Hh.
  by destruct (h e s) as [[??]?].
Qed.

Lemma reads_only_requests_get world url : reads_only (requests_get (S:=S) world url).
Proof.
  unfold requests_get. apply reads_only_bind; [apply reads_only_emit|].
  intros _. destruct (http world url); [apply reads_only_ret | apply reads_only_raise].
Qed.

Lemma reads_only_json_loads r : reads_only (json_loads (S:=S) r).
Proof.
  unfold json_loads. destruct (body r); [apply reads_only_ret | apply reads_only_raise].
Qed.

(** *** Computations that never raise *)

Lemma never_raises_ret {A} (a : A) : never_raises (mret a : M S A).
Proof. intros s. by exists a. Qed.

Lemma never_raises_gets {A} (f : S -> A) : never_raises (gets f).
Proof. intros s. by exists (f s). Qed.

Lemma never_raises_modify (f : S -> S) : never_raises (modify f).
Proof. intros s. by exists tt. Qed.

Lemma never_raises_emit ev : never_raises (emit ev : M S unit).
Proof. intros s. by exists tt. Qed.

Lemma never_raises_bind {A B} (c : M S A) (k : A -> M S B) :
  never_raises c -> (forall a, never_raises (k a)) -> never_raises (c ≫= k).
Proof.
  intros Hc Hk s. unfold outcome. rewrite run_bind.
  destruct (Hc s) as [a Ha]. unfold outcome in Ha.
  destruct (c s) as [[r s1] t1]. simpl in Ha. subst r.
  destruct (Hk a s1) as [b Hb]. unfold outcome in Hb.
  destruct (k a s1) as [[r s2] t2]. simpl in *. by exists b.
Qed.

Lemma never_raises_when b (c : M S unit) : never_raises c -> never_raises (when b c).
Proof. destruct b; [done | intros _; apply never_raises_ret]. Qed.

Lemma never_raises_try_except {A} (c : M S A) (h : exn -> M S A) :
  (forall e, never_raises (h e)) -> never_raises (try_except c h).
Proof.
  intros Hh s. unfold outcome, try_except.
  destruct (c s) as [[[a|e] s1] t1]; [by exists a|].
  destruct (Hh e s1) as [b Hb]. unfold outcome in Hb.
  destruct (h e s1) as [[r s2] t2]. simpl in *. by exists b.
Qed.

(** *** What a computation may emit *)

Lemma emits_ret {A} P (a : A) : emits P (mret a : M S A).
Proof. intros s. constructor. Qed.

Lemma emits_raise {A} P e : emits P (raise e : M S A).
Proof. intros s. constructor. Qed.

Lemma emits_lift {A} P (r : result A) : emits P (lift r : M S A).
Proof. intros s. constructor. Qed.

Lemma emits_gets {A} P (f : S -> A) : emits P (gets f).
Proof. intros s. constructor. Qed.

Lemma emits_modify P (f : S -> S) : emits P (modify f).
Proof. intros s. constructor. Qed.

Lemma emits_emit P ev : P ev -> emits P (emit ev : M S unit).
Proof. intros H s. by repeat constructor. Qed.

Lemma emits_bind {A B} P (c : M S A) (k : A -> M S B) :
  emits P c -> (forall a, emits P (k a)) -> emits P (c ≫= k).
Proof.
  intros Hc Hk s. unfold trace. rewrite run_bind.
  specialize (Hc s). unfold trace in Hc.
  destruct (c s) as [[[a|e] s1] t1]; simpl in *; [|done].
  specialize (Hk a s1). unfold trace in Hk.
  destruct (k a s1) as [[??]?]. simpl in *. by apply Forall_app.
Qed.

Lemma emits_try_except {A} P (c : M S A) (h : exn -> M S A) :
  emits P c -> (forall e, emits P (h e)) -> emits P (try_except c h).
Proof.
  intros Hc Hh s. unfold trace, try_except.
  specialize (Hc s). unfold trace in Hc.
  destruct (c s) as [[[a|e] s1] t1]; simpl in *; [done|].
  specialize (Hh e s1). unfold trace in Hh.
  destruct (h e s1) as [[??]?]. simpl in *. by apply Forall_app.
Qed.

Lemma emits_when P b (c : M S unit) : emits P c -> emits P (when b c).
Proof. destruct b; [done | intros _; apply emits_ret]. Qed.

Lemma emits_requests_get P world url :
  P (Get url) -> emits P (requests_get (S:=S) world url).
Proof.
  intros H. unfold requests_get. apply emits_bind; [by apply emits_emit|].
  intros _. destruct (http world url); [apply emits_ret | apply emits_raise].
Qed.

Lemma emits_json_loads P r : emits P (json_loads (S:=S) r).
Proof. unfold json_loads. destruct (body r); [apply emits_ret | apply emits_raise]. Qed.

Lemma emits_load_photo P world path w h :
  P (Open path) -> emits P (load_photo (S:=S) world path w h).
Proof.
  intros H. unfold load_photo. apply emits_bind; [by apply emits_emit|].
  intros _. destruct (image_ok world path); [apply emits_ret | apply emits_raise].
Qed.

Lemma timers_none tr : Forall not_after tr -> timers tr = [].
Proof.
  induction 1 as [|ev tr Hev _ IH]; [done|].
  unfold timers in *. simpl. unfold not_after in Hev. by rewrite Hev.
Qed.

Lemma redraws_none tr : Forall not_config tr -> redraws tr = [].
Proof.
  induction 1 as [|ev tr Hev _ IH]; [done|].
  unfold redraws in *. simpl. unfold not_config in Hev. by rewrite Hev.
Qed.
End MonadFacts.

Ltac emits_step :=
  first
    [ apply emits_bind; [|intros ?]
    | apply emits_try_except; [|intros ?]
    | apply emits_ret | apply emits_raise | apply emits_lift
    | apply emits_gets | apply emits_modify | apply emits_json_loads
    | apply emits_when
    | apply emits_emit; done
    | apply emits_requests_get; done
    | apply emits_load_photo; done
    | match goal with
      | |- emits _ (match ?x with _ => _ end) => destruct x
      end ].

Ltac reads_only_step :=
  first
    [ apply reads_only_bind; [|intros ?]
    | apply reads_only_try_except; [|intros ?]
    | apply reads_only_ret | apply reads_only_raise | apply reads_only_lift
    | apply reads_only_gets | apply reads_only_emit
    | apply reads_only_requests_get | apply reads_only_json_loads
    | match goal with
      | |- reads_only (match ?x with _ => _ end) => destruct x
      end ].

Ltac never_raises_step :=
  first
    [ apply never_raises_bind; [|intros ?]
    | apply never_raises_ret | apply never_raises_gets
    | apply never_raises_modify | apply never_raises_emit
    | apply never_raises_when
    | match goal with
      | |- never_raises (match ?x with _ => _ end) => destruct x
      end ].

(** ** The weather widget *)

Module WeatherFacts.
Import Weather.

Example continuation_length : String.length continuation = 20%nat.
Proof. reflexivity. Qed.

Section Runs.
Variables (rt : Runtime) (cfg : Config) (world : World).

Lemma get_ip_reads_only : reads_only (get_ip world).
Proof. unfold get_ip. repeat reads_only_step. Qed.

Lemma locate_reads_only : reads_only (locate rt cfg world).
Proof.
  unfold locate. destruct (_ && _); [|apply reads_only_ret].
  apply reads_only_bind; [apply get_ip_reads_only|]. intros ?.
  repeat reads_only_step.
Qed.

Lemma fetch_reads_only url : reads_only (fetch rt world url).
Proof. unfold fetch. repeat reads_only_step. Qed.

Lemma extract_reads_only : reads_only (extract rt cfg world).
Proof.
  unfold extract. apply reads_only_bind; [apply locate_reads_only|].
  intros [url loc]. apply fetch_reads_only.
Qed.

Lemma extract_emits P :
  (forall url, P (Get url)) -> (forall e, P (PrintExc e)) ->
  emits P (extract rt cfg world).
Proof.
  intros HG HP. unfold extract, locate, get_ip, fetch.
  repeat emits_step.
Qed.

Lemma redraw_emits P r :
  (forall path, P (Open path)) -> (forall lbl o, P (Configure lbl o)) ->
  emits P (redraw world r).
Proof.
  intros HO HC. unfold redraw, config.
  repeat emits_step.
Qed.

(** The only step of [redraw] that can raise is the loading of the icon,
    which comes before any label is touched. *)
Lemma redraw_raise r s e s' tr :
  redraw world r s = (Raise e, s', tr) -> displayed s' = displayed s.
Proof.
  unfold redraw. intros H.
  apply bind_inv in H as [(e' & H & _) | (a & s1 & t1 & t2 & _ & H & _)].
  - revert H. unfold config. run. intros H.
    repeat case_match; simplify_eq; done.
  - match type of H with
    | ?k _ = _ => assert (never_raises k) as Hk
    end.
    { unfold config. repeat never_raises_step. }
    destruct (Hk s1) as [u Hu]. unfold outcome in Hu. by rewrite H in Hu.
Qed.

Lemma get_weather_try_emits P :
  (forall url, P (Get url)) -> (forall e, P (PrintExc e)) ->
  (forall path, P (Open path)) -> (forall lbl o, P (Configure lbl o)) ->
  emits P (get_weather_try rt cfg world).
Proof.
  intros. unfold get_weather_try.
  apply emits_bind; [by apply extract_emits|].
  intros r. by apply redraw_emits.
Qed.

(** A poll whose [try] raises ends in the handler, then sets the timer. *)
Lemma get_weather_raise s e s' tr :
  get_weather_try rt cfg world s = (Raise e, s', tr) ->
  get_weather rt cfg world s =
    (Ok tt, s',
     (tr ++ [PrintExc e; Print e ". Cannot get weather.";
             After 600000 "get_weather"])%list).
Proof.
  intros H. unfold get_weather. run. rewrite H. simpl.
  by rewrite <- !app_assoc.
Qed.

(** A poll whose [try] completes only adds the timer. *)
Lemma get_weather_ok s s' tr :
  get_weather_try rt cfg world s = (Ok tt, s', tr) ->
  get_weather rt cfg world s = (Ok tt, s', (tr ++ [After 600000 "get_weather"])%list).
Proof. intros H. unfold get_weather. run. by rewrite H. Qed.

Lemma get_weather_timers s :
  timers (trace (get_weather rt cfg world) s) = [After 600000 "get_weather"].
Proof.
  pose proof (get_weather_try_emits not_after) as He.
  specialize (He ltac:(done) ltac:(done) ltac:(done) ltac:(done) s).
  unfold trace in *.
  destruct (get_weather_try rt cfg world s) as [[[[]|e] s'] tr] eqn:H; simpl in He.
  - rewrite (get_weather_ok _ _ _ H). simpl. unfold timers.
    rewrite List.filter_app. fold (timers tr). by rewrite timers_none.
  - rewrite (get_weather_raise _ _ _ _ H). simpl. unfold timers.
    rewrite List.filter_app. fold (timers tr). by rewrite timers_none.
Qed.

Lemma get_weather_never_raises : never_raises (get_weather rt cfg world).
Proof.
  unfold get_weather. apply never_raises_bind; [|intros ?; apply never_raises_emit].
  apply never_raises_try_except. intros e. repeat never_raises_step.
Qed.
End Runs.

(** C3: a poll of the weather that fails with whatever exception is not
    fatal, leaves every label of the frame showing what it showed, and sets
    the timer for the next poll to 600000 ms, which is also the one timer a
    poll sets when it succeeds. *)
Theorem get_weather_failure rt cfg world s e s' tr :
  get_weather_try rt cfg world s = (Raise e, s', tr) ->
  outcome (get_weather rt cfg world) s = Ok tt /\
  displayed (final (get_weather rt cfg world) s) = displayed s /\
  timers (trace (get_weather rt cfg world) s) = [After 600000 "get_weather"] /\
  (forall world0 s0,
     timers (trace (get_weather rt cfg world0) s0) = [After 600000 "get_weather"]).
Proof.
  intros H. pose proof (get_weather_raise _ _ _ _ _ _ _ H) as Hrun.
  unfold outcome, final. rewrite Hrun. simpl.
  split; [done|].
  split; [|split; [apply get_weather_timers | intros; apply get_weather_timers]].
  unfold get_weather_try in H.
  apply bind_inv in H as [(e' & H & _) | (r & s1 & t1 & t2 & H1 & H2 & _)].
  - pose proof (extract_reads_only rt cfg world s) as Hs.
    unfold final in Hs. rewrite H in Hs. simpl in Hs. by subst.
  - pose proof (extract_reads_only rt cfg world s) as Hs.
    unfold final in Hs. rewrite H1 in Hs. simpl in Hs. subst s1.
    by eapply redraw_raise.
Qed.

Lemma get_weather_failure_witness :
  get_weather_try Sample.rt constants Sample.offline
      (Sample.after_poll Sample.clouds) =
    (Raise RequestException, Sample.after_poll Sample.clouds,
     [Get ("http://api.openweathermap.org/data/2.5/weather" +:+
           "?lat=-26.6316062&lon=-54.1174863&" +:+ continuation +:+ "lang=en&appid=")]) /\
  outcome (get_weather_try Sample.rt constants Sample.garbled)
          (Sample.after_poll Sample.clouds) = Raise JSONDecodeError /\
  outcome (get_weather_try Sample.rt constants (Sample.answering (JDict []) None))
          (Sample.after_poll Sample.clouds) = Raise KeyError /\
  displayed (final (get_weather Sample.rt constants Sample.offline)
                   (Sample.after_poll Sample.clouds)) =
    displayed (Sample.after_poll Sample.clouds) /\
  displayed (final (get_weather Sample.rt constants Sample.garbled)
                   (Sample.after_poll Sample.clouds)) =
    displayed (Sample.after_poll Sample.clouds) /\
  displayed (final (get_weather Sample.rt constants
                      (Sample.answering (JDict []) None))
                   (Sample.after_poll Sample.clouds)) =
    displayed (Sample.after_poll Sample.clouds) /\
  timers (trace (get_weather Sample.rt constants Sample.offline)
                (Sample.after_poll Sample.clouds)) =
    [After 600000 "get_weather"].
Proof.
  assert (get_weather_try Sample.rt constants Sample.offline
            (Sample.after_poll Sample.clouds) =
          (Raise RequestException, Sample.after_poll Sample.clouds,
           [Get ("http://api.openweathermap.org/data/2.5/weather" +:+
                 "?lat=-26.6316062&lon=-54.1174863&" +:+ continuation +:+
                 "lang=en&appid=")])) as Hnet.
  { vm_compute. reflexivity. }
  assert (get_weather_try Sample.rt constants Sample.garbled
            (Sample.after_poll Sample.clouds) =
          (Raise JSONDecodeError, Sample.after_poll Sample.clouds,
           [Get ("http://api.openweathermap.org/data/2.5/weather" +:+
                 "?lat=-26.6316062&lon=-54.1174863&" +:+ continuation +:+
                 "lang=en&appid=")])) as Hjson.
  { vm_compute. reflexivity. }
  assert (get_weather_try Sample.rt constants (Sample.answering (JDict []) None)
            (Sample.after_poll Sample.clouds) =
          (Raise KeyError, Sample.after_poll Sample.clouds,
           [Get ("http://api.openweathermap.org/data/2.5/weather" +:+
                 "?lat=-26.6316062&lon=-54.1174863&" +:+ continuation +:+
                 "lang=en&appid=")])) as Hkey.
  { vm_compute. reflexivity. }
  pose proof (get_weather_failure _ _ _ _ _ _ _ Hnet) as (_ & Hd1 & Ht1 & _).
  pose proof (get_weather_failure _ _ _ _ _ _ _ Hjson) as (_ & Hd2 & _).
  pose proof (get_weather_failure _ _ _ _ _ _ _ Hkey) as (_ & Hd3 & _).
  split; [exact Hnet|]. split; [unfold outcome; by rewrite Hjson|].
  split; [unfold outcome; by rewrite Hkey|].
  split; [exact Hd1|]. split; [exact Hd2|]. split; [exact Hd3|exact Ht1].
Defined.

Section Readings.
Variables (rt : Runtime) (cfg : Config) (world : World).

Lemma eq_str_refl v : is_str v = true -> Py.eq v v = true.
Proof. destruct v; try done. intros _. apply String.eqb_refl. Qed.

(** What a reading is made of, when the weather request yields one. *)
Lemma fetch_ok url s r :
  outcome (fetch rt world url) s = Ok r ->
  exists weather_obj temp kelvin icon_id o,
    http world url = Some (Response (Some weather_obj)) /\
    main_temp weather_obj = Ok temp /\
    Py.int rt temp = Ok kelvin /\
    temperature2 r = str_of_int (kelvin - 273) +:+ degree_sign /\
    icon_code weather_obj = Ok icon_id /\
    dict_get icon_lookup icon_id = Ok o /\
    icon2 r = or_None o.
Proof.
  unfold fetch, main_temp, icon_code, convert_kelvin_to_celsius, Py.sub, arith.
  run. intros H.
  destruct (http world url) as [[[weather_obj|]]|] eqn:Hhttp; simpl in H; [|done..].
  exists weather_obj.
  destruct (getitem weather_obj "main") as [main|] eqn:Hmain; simpl in H; [|done].
  destruct (getitem main "temp") as [temp|] eqn:Htemp; simpl in H; [|done].
  destruct (Py.int rt temp) as [kelvin|] eqn:Hint; simpl in H; [|done].
  exists temp, kelvin.
  destruct (weather0 weather_obj) as [w|] eqn:Hw; simpl in H; [|done].
  destruct (getitem w "main"); simpl in H; [|done].
  destruct (getitem w "description"); simpl in H; [|done].
  destruct (getitem weather_obj "name"); simpl in H; [|done].
  destruct (getitem w "icon") as [icon_id|] eqn:Hicon; simpl in H; [|done].
  destruct (dict_get icon_lookup icon_id) as [o|] eqn:Ho; simpl in H; [|done].
  exists icon_id, o. by simplify_eq.
Qed.

(** After a completed [redraw] each cache compares equal to the field it
    caches. *)
Lemma redraw_caches r s s1 tr p :
  redraw world r s = (Ok tt, s1, tr) ->
  icon2 r = Some p ->
  Py.eq (currently2 r) (currently2 r) = true ->
  Py.eq (forecast2 r) (forecast2 r) = true ->
  Py.eq (actual_location2 r) (actual_location2 r) = true ->
  Py.eq (actual_location2 r) (JStr ", ") = false ->
  icon s1 = p /\
  Py.eq (currently s1) (currently2 r) = true /\
  Py.eq (forecast s1) (forecast2 r) = true /\
  temperature s1 = temperature2 r /\
  Py.eq (actual_location s1) (actual_location2 r) = true.
Proof.
  intros H Hp Hc Hf Ha Hcomma.
  revert H. unfold redraw, config. run. rewrite Hp, Hcomma.
  destruct (icon s =? p) eqn:Hi; simpl;
    [apply String.eqb_eq in Hi|destruct (image_ok world p); simpl; [|done]];
  (destruct (Py.eq (currently s) (currently2 r)) eqn:H1; simpl);
  (destruct (Py.eq (forecast s) (forecast2 r)) eqn:H2; simpl);
  (destruct (temperature s =? temperature2 r) eqn:H3; simpl;
   [apply String.eqb_eq in H3|]);
  (destruct (Py.eq (actual_location s) (actual_location2 r)) eqn:H4; simpl);
  intros [= <- _]; done.
Qed.

(** When each cache compares equal to its field, [redraw] does nothing. *)
Lemma redraw_same r s p :
  icon2 r = Some p -> icon s = p ->
  Py.eq (currently s) (currently2 r) = true ->
  Py.eq (forecast s) (forecast2 r) = true ->
  temperature s = temperature2 r ->
  Py.eq (actual_location s) (actual_location2 r) = true ->
  redraw world r s = (Ok tt, s, []).
Proof.
  intros Hp Hi Hc Hf Ht Ha.
  unfold redraw, config. run.
  rewrite Hp, Hi, String.eqb_refl. simpl.
  rewrite Hc. simpl. rewrite Hf. simpl.
  rewrite Ht, String.eqb_refl. simpl.
  by rewrite Ha.
Qed.
End Readings.

Section Polls.
Variables (rt : Runtime) (cfg : Config) (world : World).

(** A run of [extract] that yields a reading, spelled out. *)
Lemma extract_ok s r :
  outcome (extract rt cfg world) s = Ok r ->
  extract rt cfg world s = (Ok r, s, trace (extract rt cfg world) s) /\
  Forall not_config (trace (extract rt cfg world) s).
Proof.
  intros H. split.
  - rewrite (run_split (extract rt cfg world) s) at 1.
    by rewrite H, extract_reads_only.
  - by apply extract_emits.
Qed.

(** The reading of a poll comes from the answer to its weather request. *)
Lemma extract_answered s weather_obj r :
  answered rt cfg world s weather_obj ->
  outcome (extract rt cfg world) s = Ok r ->
  exists temp kelvin icon_id o,
    main_temp weather_obj = Ok temp /\
    Py.int rt temp = Ok kelvin /\
    temperature2 r = str_of_int (kelvin - 273) +:+ degree_sign /\
    icon_code weather_obj = Ok icon_id /\
    dict_get icon_lookup icon_id = Ok o /\
    icon2 r = or_None o.
Proof.
  intros (url & loc & tr & Hloc & Hhttp) H.
  unfold extract, outcome in H. rewrite (bind_ok _ _ _ _ _ _ Hloc) in H.
  simpl in H. apply fetch_ok in H as (obj & temp & k & icon_id & o & H).
  destruct H as (Hhttp' & H). rewrite Hhttp in Hhttp'. simplify_eq.
  by exists temp, k, icon_id, o.
Qed.

(** Without an icon for the code, [redraw] clears the icon label first and
    completes. *)
Lemma redraw_clears r s :
  icon2 r = None ->
  exists s' tr,
    redraw world r s = (Ok tt, s', Configure "icon_lbl" (image None) :: tr) /\
    icon_lbl s' = None.
Proof.
  intros Hi. unfold redraw, config. run. rewrite Hi. simpl.
  destruct (Py.eq (currently s) (currently2 r)); simpl;
  destruct (Py.eq (forecast s) (forecast2 r)); simpl;
  destruct (temperature s =? temperature2 r); simpl;
  destruct (Py.eq (actual_location s) (actual_location2 r)); simpl;
  try destruct (Py.eq (actual_location2 r) (JStr ", ")); simpl;
  eauto.
Qed.

(** The first thing [fetch] does is the weather request. *)
Lemma fetch_trace url s :
  exists tr, trace (fetch rt world url) s = Get url :: tr.
Proof.
  unfold fetch, trace. rewrite run_bind, requests_get_run.
  destruct (http world url) as [r|]; [|by eauto].
  match goal with
  | |- context [match ?x with _ => _ end] => destruct x as [[??]?]
  end.
  simpl. eauto.
Qed.
End Polls.

(** C2, as amended: when a poll completes and the next poll reads the same
    fields, each of which equals itself (as every string does), with an
    icon code that the table maps and a place name other than a comma and
    a space, the second poll makes no redraw call and leaves the frame as
    it was. *)
Theorem redraw_suppressed rt cfg world1 world2 s s1 tr1 r :
  outcome (extract rt cfg world1) s = Ok r ->
  get_weather_try rt cfg world1 s = (Ok tt, s1, tr1) ->
  outcome (extract rt cfg world2) s1 = Ok r ->
  is_Some (icon2 r) ->
  Py.eq (currently2 r) (currently2 r) = true ->
  Py.eq (forecast2 r) (forecast2 r) = true ->
  Py.eq (actual_location2 r) (actual_location2 r) = true ->
  Py.eq (actual_location2 r) (JStr ", ") = false ->
  redraws (trace (get_weather rt cfg world2) s1) = [] /\
  final (get_weather rt cfg world2) s1 = s1.
Proof.
  intros H1 Hrun H2 [p Hp] Hc Hf Ha Hne.
  apply extract_ok in H1 as [H1 _]. apply extract_ok in H2 as [H2 Hquiet].
  unfold get_weather_try in Hrun. rewrite (bind_ok _ _ _ _ _ _ H1) in Hrun.
  simpl in Hrun.
  assert (redraw world1 r s = (Ok tt, s1, (redraw world1 r s).2)) as Hredraw.
  { injection Hrun as Ho Hs _.
    rewrite (run_split (redraw world1 r) s) at 1.
    unfold outcome, final, trace. by rewrite Ho, Hs. }
  destruct (redraw_caches _ _ _ _ _ _ Hredraw Hp Hc Hf Ha Hne)
    as (Ei & Ec & Ef & Et & Eloc).
  assert (get_weather_try rt cfg world2 s1 =
          (Ok tt, s1, (trace (extract rt cfg world2) s1 ++ [])%list)) as Htry.
  { unfold get_weather_try. rewrite (bind_ok _ _ _ _ _ _ H2).
    by rewrite (redraw_same world2 r s1 p). }
  unfold final, trace at 1. rewrite (get_weather_ok _ _ _ _ _ _ Htry). simpl.
  split; [|done]. apply redraws_none.
  rewrite app_nil_r. apply Forall_app. split; [done|]. by repeat constructor.
Qed.

Lemma redraw_suppressed_witness :
  outcome (extract Sample.rt constants (Sample.answering Sample.clouds None))
          Weather.init = Ok Sample.clouds_reading /\
  outcome (extract Sample.rt constants (Sample.answering Sample.clouds None))
          (Sample.after_poll Sample.clouds) = Ok Sample.clouds_reading /\
  redraws (trace (get_weather Sample.rt constants (Sample.answering Sample.clouds None))
                 (Sample.after_poll Sample.clouds)) = [] /\
  final (get_weather Sample.rt constants (Sample.answering Sample.clouds None))
        (Sample.after_poll Sample.clouds) = Sample.after_poll Sample.clouds.
Proof.
  split; [vm_compute; reflexivity|]. split; [vm_compute; reflexivity|].
  eapply (redraw_suppressed Sample.rt constants
            (Sample.answering Sample.clouds None)
            (Sample.answering Sample.clouds None)
            Weather.init (Sample.after_poll Sample.clouds)).
  - vm_compute. reflexivity.
  - vm_compute. reflexivity.
  - vm_compute. reflexivity.
  - simpl. eauto.
  - reflexivity.
  - reflexivity.
  - reflexivity.
  - reflexivity.
Defined.

(** C2, as stated, fails: with an icon code that the table does not map,
    two consecutive polls read the same fields and the second still
    reconfigures the icon label. *)
Lemma redraw_not_suppressed_unknown_icon :
  outcome (extract Sample.rt constants (Sample.answering Sample.unknown_icon None))
          Weather.init =
    Ok {| temperature2 := "27°"; currently2 := JStr "Clouds";
          forecast2 := JStr "few clouds"; actual_location2 := JStr "Posadas";
          icon2 := None |} /\
  outcome (extract Sample.rt constants (Sample.answering Sample.unknown_icon None))
          (Sample.after_poll Sample.unknown_icon) =
    Ok {| temperature2 := "27°"; currently2 := JStr "Clouds";
          forecast2 := JStr "few clouds"; actual_location2 := JStr "Posadas";
          icon2 := None |} /\
  redraws (trace (get_weather Sample.rt constants
                    (Sample.answering Sample.unknown_icon None))
                 (Sample.after_poll Sample.unknown_icon)) =
    [Configure "icon_lbl" (image None)] /\
  redraws (trace (get_weather Sample.rt constants
                    (Sample.answering Sample.unknown_icon None))
                 (Sample.after_poll Sample.unknown_icon)) <> [].
Proof. vm_compute. done. Qed.

(** The same happens for a place named by a comma and a space: the cache
    holds the replacement text, which never equals the name read. *)
Lemma redraw_not_suppressed_unnamed_place :
  redraws (trace (get_weather Sample.rt constants
                    (Sample.answering Sample.unnamed_place None))
                 (Sample.after_poll Sample.unnamed_place)) =
    [Configure "actual_location_lbl" (text (JStr "Cannot Pinpoint Location"))].
Proof. vm_compute. done. Qed.

(** So it does when a field is a NaN, which equals nothing, itself
    included. *)
Lemma redraw_not_suppressed_nan :
  redraws (trace (get_weather Sample.rt constants
                    (Sample.answering Sample.nan_condition None))
                 (Sample.after_poll Sample.nan_condition)) =
    [Configure "currently_lbl" (text (JFloat nan))].
Proof. vm_compute. done. Qed.

(** And when the first of the two polls did not complete: once the icon
    could not be loaded, the next poll takes it for shown and draws the
    texts that the failed poll left out. *)
Lemma redraw_not_suppressed_after_failed_load :
  outcome (get_weather_try Sample.rt constants
             (Sample.without_assets Sample.clouds)) Weather.init =
    Raise OSError /\
  redraws (trace (get_weather Sample.rt constants
                    (Sample.answering Sample.clouds None))
                 (Sample.after_poll_in (Sample.without_assets Sample.clouds))) =
    [Configure "currently_lbl" (text (JStr "Clouds"));
     Configure "forecast_lbl" (text (JStr "few clouds"));
     Configure "temperature_lbl" (text (JStr "27°"));
     Configure "actual_location_lbl" (text (JStr "Posadas"))].
Proof. vm_compute. done. Qed.

(** C4: the label text of the temperature is [int] of the reading, less
    273, followed by the degree sign; [convert_kelvin_to_celsius]
    subtracts 273, [convert_kelvin_to_fahrenheit] computes
    1.8 * (kelvin - 273) + 32 in floating point; at 300 they give 27 and
    80.6. *)
Theorem kelvin_conversions rt cfg world s weather_obj temp kelvin r :
  answered rt cfg world s weather_obj ->
  main_temp weather_obj = Ok temp ->
  Py.int rt temp = Ok kelvin ->
  outcome (extract rt cfg world) s = Ok r ->
  temperature2 r = str_of_int (kelvin - 273) +:+ "°" /\
  (forall k, convert_kelvin_to_celsius (PInt k) = Ok (PInt (k - 273))) /\
  (forall f, convert_kelvin_to_celsius (PFloat f) = Ok (PFloat (f - 273)%float)) /\
  (forall k, convert_kelvin_to_fahrenheit (PInt k) =
             rbind (float_of_int (k - 273))
               (fun d => Ok (PFloat (1.8 * d + 32)%float))) /\
  (forall f, convert_kelvin_to_fahrenheit (PFloat f) =
             Ok (PFloat (1.8 * (f - 273) + 32)%float)) /\
  convert_kelvin_to_celsius (PInt 300) = Ok (PInt 27) /\
  convert_kelvin_to_fahrenheit (PInt 300) = Ok (PFloat 80.6).
Proof.
  intros Hans Htemp Hint Hr.
  destruct (extract_answered _ _ _ _ _ _ Hans Hr)
    as (temp' & k' & _ & _ & Htemp' & Hint' & Ht & _).
  rewrite Htemp in Htemp'. simplify_eq. rewrite Hint in Hint'. simplify_eq.
  split; [done|]. split; [done|]. split; [done|].
  split; [|split; [done|split; [done|by vm_compute]]].
  intros k. unfold convert_kelvin_to_fahrenheit. simpl.
  by destruct (float_of_int (k - 273)).
Qed.

Lemma kelvin_conversions_witness :
  main_temp Sample.clouds = Ok (JFloat 300.9) /\
  Py.int Sample.rt (JFloat 300.9) = Ok 300%Z /\
  outcome (extract Sample.rt constants (Sample.answering Sample.clouds None))
          Weather.init = Ok Sample.clouds_reading /\
  temperature2 Sample.clouds_reading = str_of_int (300 - 273) +:+ "°" /\
  convert_kelvin_to_celsius (PInt 300) = Ok (PInt 27) /\
  convert_kelvin_to_fahrenheit (PInt 300) = Ok (PFloat 80.6).
Proof.
  assert (answered Sample.rt constants (Sample.answering Sample.clouds None)
            Weather.init Sample.clouds) as Hans.
  { eexists _, _, _. split; vm_compute; reflexivity. }
  assert (main_temp Sample.clouds = Ok (JFloat 300.9)) as Htemp.
  { reflexivity. }
  assert (Py.int Sample.rt (JFloat 300.9) = Ok 300%Z) as Hint.
  { vm_compute. reflexivity. }
  assert (outcome (extract Sample.rt constants
                     (Sample.answering Sample.clouds None)) Weather.init =
          Ok Sample.clouds_reading) as Hr.
  { vm_compute. reflexivity. }
  pose proof (kelvin_conversions _ _ _ _ _ _ _ _ Hans Htemp Hint Hr)
    as (H1 & _ & _ & _ & _ & H2 & H3).
  split; [exact Htemp|]. split; [exact Hint|]. split; [exact Hr|].
  split; [exact H1|]. split; [exact H2|exact H3].
Defined.

(** C5: the table maps "01d" to the asset of the sun, and a poll whose
    icon code is not in the table completes without raising, having
    cleared the icon label. *)
Theorem unknown_icon_clears rt cfg world s weather_obj code r :
  answered rt cfg world s weather_obj ->
  icon_code weather_obj = Ok (JStr code) ->
  icon_lookup !! code = None ->
  outcome (extract rt cfg world) s = Ok r ->
  icon_lookup !! "01d" = Some "assets/Sun.png" /\
  outcome (get_weather_try rt cfg world) s = Ok tt /\
  icon_lbl (final (get_weather rt cfg world) s) = None /\
  Configure "icon_lbl" (image None) ∈ trace (get_weather rt cfg world) s.
Proof.
  intros Hans Hcode Habsent Hr. split; [done|].
  destruct (extract_answered _ _ _ _ _ _ Hans Hr)
    as (_ & _ & icon_id & o & _ & _ & _ & Hcode' & Hget & Hicon).
  rewrite Hcode in Hcode'. simplify_eq. simpl in Hget. rewrite Habsent in Hget.
  simplify_eq. simpl in Hicon.
  apply extract_ok in Hr as [Hr _].
  destruct (redraw_clears world r s Hicon) as (s' & tr & Hredraw & Hlbl).
  assert (get_weather_try rt cfg world s =
          (Ok tt, s', (trace (extract rt cfg world) s ++
                       Configure "icon_lbl" (image None) :: tr)%list)) as Htry.
  { unfold get_weather_try. rewrite (bind_ok _ _ _ _ _ _ Hr).
    by rewrite Hredraw. }
  unfold outcome, final, trace.
  rewrite Htry, (get_weather_ok _ _ _ _ _ _ Htry). simpl.
  split; [done|]. split; [done|].
  rewrite !elem_of_app. left. right. by left.
Qed.

Lemma unknown_icon_clears_witness :
  icon_lookup !! "99x" = None /\
  icon_lbl (final (get_weather Sample.rt constants
                     (Sample.answering Sample.unknown_icon None))
                  (Sample.after_poll Sample.clouds)) = None.
Proof.
  split; [reflexivity|].
  eapply (unknown_icon_clears Sample.rt constants
            (Sample.answering Sample.unknown_icon None)
            (Sample.after_poll Sample.clouds) Sample.unknown_icon "99x").
  - eexists _, _, _. split; vm_compute; reflexivity.
  - reflexivity.
  - reflexivity.
  - vm_compute. reflexivity.
Defined.

(** C6 is not what the code does: on the geolocation path, a blank city and
    a blank region make the assembled location ", ", but the label shows
    the name that came with the weather. *)
Theorem blank_geolocation_shows_weather_name :
  outcome (locate Sample.rt Sample.unset
             (Sample.geolocated (Some (JDict [("ip", JStr "203.0.113.7")]))))
          Weather.init =
    Ok ("http://api.openweathermap.org/data/2.5/weather?lat=-27&" +:+
        continuation +:+ "lon=-55&lang=en&appid=", Some ", ") /\
  actual_location_lbl
    (final (get_weather Sample.rt Sample.unset
              (Sample.geolocated (Some (JDict [("ip", JStr "203.0.113.7")]))))
           Weather.init) = JStr "Posadas".
Proof. vm_compute. done. Qed.

Section Paths.
Variables (rt : Runtime) (cfg : Config) (world : World).

(** Every way [get_ip] can go. *)
Lemma get_ip_run s :
  get_ip world s =
  match http world "http://jsonip.com/" with
  | None => (Raise RequestException, s, [Get "http://jsonip.com/"])
  | Some r =>
      match body r with
      | None =>
          (Ok (JStr "Error: Cannot get ip."), s,
           [Get "http://jsonip.com/"; PrintExc JSONDecodeError])
      | Some ip_json =>
          match getitem ip_json "ip" with
          | Ok ip => (Ok ip, s, [Get "http://jsonip.com/"])
          | Raise ((JSONDecodeError | KeyError) as e) =>
              (Ok (JStr "Error: Cannot get ip."), s,
               [Get "http://jsonip.com/"; PrintExc e])
          | Raise e => (Raise e, s, [Get "http://jsonip.com/"])
          end
      end
  end.
Proof.
  unfold get_ip. run.
  destruct (http world "http://jsonip.com/") as [r|]; [|done].
  destruct (body r) as [ip_json|]; [|done].
  destruct (getitem ip_json "ip") as [ip|[]]; done.
Qed.

Lemma getitem_raises o k e :
  getitem o k = Raise e -> e = KeyError \/ e = TypeError.
Proof. destruct o; simpl; try naive_solver. destruct (assoc k d); naive_solver. Qed.

Lemma get_ip_trace s :
  exists tr, trace (get_ip world) s = Get "http://jsonip.com/" :: tr.
Proof.
  unfold trace. rewrite get_ip_run.
  repeat case_match; simpl; eauto.
Qed.

Lemma locate_unset s :
  LATITUDE cfg = None -> LONGITUDE cfg = None ->
  geolocates rt cfg world s.
Proof.
  intros Hlat Hlon. unfold geolocates, locate. rewrite Hlat, Hlon. simpl.
  match goal with
  | |- exists _, trace (?c ≫= ?k) s = _ =>
      destruct (trace_bind c k s) as [tr Htr]
  end.
  destruct (get_ip_trace s) as [tr0 Htr0].
  exists (tr0 ++ tr)%list. by rewrite Htr, Htr0.
Qed.

Lemma locate_set s :
  ~ (LATITUDE cfg = None /\ LONGITUDE cfg = None) ->
  locate rt cfg world s =
    (Ok (WEATHER_API_URL cfg +:+
         "?lat=" +:+ str_coordinate rt (LATITUDE cfg) +:+
         "&lon=" +:+ str_coordinate rt (LONGITUDE cfg) +:+ "&" +:+
         continuation +:+ "lang=" +:+ WEATHER_LANG cfg +:+
         "&appid=" +:+ WEATHER_API_TOKEN cfg, None), s, []).
Proof.
  intros H. unfold locate.
  destruct (LATITUDE cfg), (LONGITUDE cfg); simpl; try done.
  by destruct H.
Qed.

(** A poll whose [locate] makes no request starts with the weather request. *)
Lemma get_weather_trace_head s url loc :
  locate rt cfg world s = (Ok (url, loc), s, []) ->
  exists tr, trace (get_weather rt cfg world) s = Get url :: tr.
Proof.
  intros Hloc.
  assert (exists tr, trace (get_weather_try rt cfg world) s = Get url :: tr)
    as [tr Htr].
  { destruct (trace_bind (extract rt cfg world) (fun r => redraw world r) s)
      as [t Ht].
    unfold get_weather_try. rewrite Ht.
    unfold extract at 1, trace at 1. rewrite (bind_ok _ _ _ _ _ _ Hloc).
    simpl. destruct (fetch_trace rt world url s) as [t' Ht'].
    unfold trace in Ht'. rewrite Ht'. simpl. eauto. }
  unfold trace in *.
  destruct (get_weather_try rt cfg world s) as [[[[]|e] s'] tr'] eqn:H;
    simpl in Htr; subst tr'.
  - rewrite (get_weather_ok _ _ _ _ _ _ H). simpl. eauto.
  - rewrite (get_weather_raise _ _ _ _ _ _ _ H). simpl. eauto.
Qed.
End Paths.

(** C8: a poll takes the geolocation path exactly when both coordinates are
    unset; otherwise it makes no geolocation request and its weather
    request carries the two static coordinates; with the constants of the
    module the geolocation path is not taken. *)
Theorem geolocation_iff_unset rt cfg world s :
  (geolocates rt cfg world s <-> LATITUDE cfg = None /\ LONGITUDE cfg = None) /\
  (~ (LATITUDE cfg = None /\ LONGITUDE cfg = None) ->
   trace (locate rt cfg world) s = [] /\
   exists tr,
     trace (get_weather rt cfg world) s =
       Get (WEATHER_API_URL cfg +:+
            "?lat=" +:+ str_coordinate rt (LATITUDE cfg) +:+
            "&lon=" +:+ str_coordinate rt (LONGITUDE cfg) +:+ "&" +:+
            continuation +:+ "lang=" +:+ WEATHER_LANG cfg +:+
            "&appid=" +:+ WEATHER_API_TOKEN cfg) :: tr) /\
  ~ geolocates rt constants world s.
Proof.
  split; [split|split].
  - intros [tr Htr].
    destruct (LATITUDE cfg) eqn:Hlat; [|destruct (LONGITUDE cfg) eqn:Hlon; [|done]].
    + unfold trace in Htr. rewrite locate_set in Htr; [done|].
      rewrite Hlat. by intros [? _].
    + unfold trace in Htr. rewrite locate_set in Htr; [done|].
      rewrite Hlon. by intros [_ ?].
  - intros [Hlat Hlon]. by apply locate_unset.
  - intros H. pose proof (locate_set rt cfg world s H) as Hloc.
    split; [unfold trace; by rewrite Hloc|].
    by eapply get_weather_trace_head.
  - intros [tr Htr]. unfold trace in Htr.
    rewrite locate_set in Htr; [done|]. by intros [? _].
Qed.

Lemma geolocation_iff_unset_witness :
  ~ (LATITUDE constants = None /\ LONGITUDE constants = None) /\
  trace (locate Sample.rt constants Sample.offline) Weather.init = [] /\
  geolocates Sample.rt Sample.unset Sample.offline Weather.init.
Proof.
  pose proof (geolocation_iff_unset Sample.rt constants Sample.offline
                Weather.init) as (_ & Hset & _).
  pose proof (geolocation_iff_unset Sample.rt Sample.unset Sample.offline
                Weather.init) as ([_ Hunset] & _ & _).
  assert (~ (LATITUDE constants = None /\ LONGITUDE constants = None)) as Hc.
  { simpl. intros [H _]. discriminate H. }
  split; [exact Hc|]. split.
  - exact (proj1 (Hset Hc)).
  - apply Hunset. split; reflexivity.
Defined.

(** C10: [get_ip] lets a failed request propagate, answers
    "Error: Cannot get ip." when the body is not JSON or has no "ip" key,
    lets any other exception propagate, and on the geolocation path that
    answer is put in the URL of the geolocation request. *)
Theorem get_ip_catches rt cfg world s :
  (http world "http://jsonip.com/" = None ->
   get_ip world s = (Raise RequestException, s, [Get "http://jsonip.com/"])) /\
  (http world "http://jsonip.com/" = Some (Response None) ->
   get_ip world s =
     (Ok (JStr "Error: Cannot get ip."), s,
      [Get "http://jsonip.com/"; PrintExc JSONDecodeError])) /\
  (forall ip_json,
     http world "http://jsonip.com/" = Some (Response (Some ip_json)) ->
     getitem ip_json "ip" = Raise KeyError ->
     get_ip world s =
       (Ok (JStr "Error: Cannot get ip."), s,
        [Get "http://jsonip.com/"; PrintExc KeyError])) /\
  (forall ip_json e,
     http world "http://jsonip.com/" = Some (Response (Some ip_json)) ->
     getitem ip_json "ip" = Raise e -> e <> KeyError ->
     get_ip world s = (Raise e, s, [Get "http://jsonip.com/"])) /\
  (forall ip_json ip,
     http world "http://jsonip.com/" = Some (Response (Some ip_json)) ->
     getitem ip_json "ip" = Ok ip ->
     get_ip world s = (Ok ip, s, [Get "http://jsonip.com/"])) /\
  (LATITUDE cfg = None -> LONGITUDE cfg = None ->
   outcome (get_ip world) s = Ok (JStr "Error: Cannot get ip.") ->
   exists tr,
     trace (locate rt cfg world) s =
       (trace (get_ip world) s ++
        Get ("https://api.freegeoip.app/json" +:+ continuation +:+
             "/Error: Cannot get ip.?apikey=" +:+ GEOIP_API_TOKEN cfg) :: tr)%list).
Proof.
  repeat split.
  - intros H. by rewrite get_ip_run, H.
  - intros H. by rewrite get_ip_run, H.
  - intros ip_json H Hk. by rewrite get_ip_run, H; simpl; rewrite Hk.
  - intros ip_json e H Hk He. rewrite get_ip_run, H; simpl; rewrite Hk.
    by destruct (getitem_raises _ _ _ Hk) as [->| ->].
  - intros ip_json ip H Hk. by rewrite get_ip_run, H; simpl; rewrite Hk.
  - intros Hlat Hlon Hip. unfold locate. rewrite Hlat, Hlon. simpl.
    assert (get_ip world s =
            (Ok (JStr "Error: Cannot get ip."), s, trace (get_ip world) s)) as Hrun.
    { rewrite (run_split (get_ip world) s) at 1.
      by rewrite Hip, get_ip_reads_only. }
    unfold trace at 1. rewrite (bind_ok _ _ _ _ _ _ Hrun). simpl.
    rewrite run_bind, requests_get_run.
    match goal with
    | |- context [Get ?u] => destruct (http world u) as [r|]
    end.
    + match goal with
      | |- context [let '(_, _) := ?x in _] => destruct x as [[??]?]
      end.
      simpl. eauto.
    + simpl. eauto.
Qed.

Lemma get_ip_catches_witness :
  get_ip Sample.offline Weather.init =
    (Raise RequestException, Weather.init, [Get "http://jsonip.com/"]) /\
  get_ip (Sample.geolocated None) Weather.init =
    (Ok (JStr "Error: Cannot get ip."), Weather.init,
     [Get "http://jsonip.com/"; PrintExc JSONDecodeError]) /\
  get_ip (Sample.geolocated (Some (JDict []))) Weather.init =
    (Ok (JStr "Error: Cannot get ip."), Weather.init,
     [Get "http://jsonip.com/"; PrintExc KeyError]) /\
  get_ip (Sample.geolocated (Some (JList []))) Weather.init =
    (Raise TypeError, Weather.init, [Get "http://jsonip.com/"]).
Proof.
  split; [|split; [|split]].
  - apply (get_ip_catches Sample.rt Sample.unset Sample.offline Weather.init).
    reflexivity.
  - apply (get_ip_catches Sample.rt Sample.unset (Sample.geolocated None)
             Weather.init).
    reflexivity.
  - by apply (proj1 (proj2 (proj2
        (get_ip_catches Sample.rt Sample.unset
           (Sample.geolocated (Some (JDict []))) Weather.init))) (JDict [])).
  - by apply (proj1 (proj2 (proj2 (proj2
        (get_ip_catches Sample.rt Sample.unset
           (Sample.geolocated (Some (JList []))) Weather.init)))) (JList [])).
Defined.

End WeatherFacts.

(** ** The clock widget *)

Module ClockFacts.
Import Clock.

(** A tick, spelled out: when the locale can be set, the three strings are
    formatted, cached and shown where they differ, and the timer is set;
    when it cannot, the tick raises before it does anything. *)
Lemma tick_run cfg world s :
  tick cfg world s =
    match formatted cfg world with
    | Some (time_updated, day_of_week_updated, date_updated) =>
        (Ok tt,
         {| LC_ALL := LC_ALL s;
            time_old := time_updated;
            day_of_week_old := day_of_week_updated;
            date_old := date_updated;
            time_lbl :=
              if String.eqb time_updated (time_old s) then time_lbl s
              else JStr time_updated;
            day_of_wk_lbl :=
              if String.eqb day_of_week_updated (day_of_week_old s)
              then day_of_wk_lbl s
              else JStr day_of_week_updated;
            date_lbl :=
              if String.eqb date_updated (date_old s) then date_lbl s
              else JStr date_updated |},
         ((if String.eqb time_updated (time_old s) then []
           else [Configure "time_lbl" (text (JStr time_updated))]) ++
          (if String.eqb day_of_week_updated (day_of_week_old s) then []
           else [Configure "day_of_wk_lbl" (text (JStr day_of_week_updated))]) ++
          (if String.eqb date_updated (date_old s) then []
           else [Configure "date_lbl" (text (JStr date_updated))]) ++
          [After 200 "tick"])%list)
    | None => (Raise LocaleError, s, [])
    end.
Proof.
  unfold formatted, tick, setlocale, locale_setlocale, time_strftime, config.
  destruct (locale_name world (UI_LOCALE cfg)) as [current|].
  - cbv [mbind M_bind bind mret M_ret ret raise lift gets modify emit when
         try_except try_finally set_LC_ALL set_time_old set_day_of_week_old
         set_date_old show LC_ALL time_old day_of_week_old date_old time_lbl
         day_of_wk_lbl date_lbl app negb].
    destruct s as [lc t0 d0 dt0 tl dl dtl].
    destruct (TIME_FORMAT cfg =? 12)%Z;
      (destruct (String.eqb _ t0) eqn:H1;
         [apply String.eqb_eq in H1; subst t0|]);
      (destruct (String.eqb _ d0) eqn:H2;
         [apply String.eqb_eq in H2; subst d0|]);
      (destruct (String.eqb _ dt0) eqn:H3;
         [apply String.eqb_eq in H3; subst dt0|]);
      reflexivity.
  - cbv [mbind M_bind bind raise gets modify try_finally set_LC_ALL LC_ALL app].
    by destruct s.
Qed.

(** C9, as stated, fails: on a system that does not support the locale
    asked for, the error leaves [tick]: no label is configured and no
    timer is set. *)
Lemma tick_unsupported_locale_sets_no_timer :
  locale_name Sample.unsupported_locale (UI_LOCALE constants) = None /\
  outcome (tick constants Sample.unsupported_locale) (init "C") =
    Raise LocaleError /\
  final (tick constants Sample.unsupported_locale) (init "C") = init "C" /\
  timers (trace (tick constants Sample.unsupported_locale) (init "C")) = [].
Proof. vm_compute. done. Qed.

(** C9, as amended: a tick for which the locale can be set reconfigures
    exactly the
    labels whose new text differs from the cached one, leaves the other
    labels alone, caches the new texts, restores the locale and sets its
    timer to 200 ms; a tick for which setting the locale raises changes
    nothing, configures no label and sets no timer. *)
Theorem tick_updates_changed cfg world s :
  (forall lc, locale_name world (UI_LOCALE cfg) = Some lc ->
   let time_updated :=
     strftime world lc (if (TIME_FORMAT cfg =? 12)%Z then "%I:%M%p" else "%H:%M") in
   let day_of_week_updated := strftime world lc "%A" in
   let date_updated := strftime world lc (DATE_FORMAT cfg) in
   let s' := final (tick cfg world) s in
   let changed (new old : string) (lbl : string) : list event :=
     if String.eqb new old then [] else [Configure lbl (text (JStr new))] in
   outcome (tick cfg world) s = Ok tt /\
   time_lbl s' =
     (if String.eqb time_updated (time_old s) then time_lbl s
      else JStr time_updated) /\
   day_of_wk_lbl s' =
     (if String.eqb day_of_week_updated (day_of_week_old s) then day_of_wk_lbl s
      else JStr day_of_week_updated) /\
   date_lbl s' =
     (if String.eqb date_updated (date_old s) then date_lbl s
      else JStr date_updated) /\
   time_old s' = time_updated /\
   day_of_week_old s' = day_of_week_updated /\
   date_old s' = date_updated /\
   LC_ALL s' = LC_ALL s /\
   redraws (trace (tick cfg world) s) =
     (changed time_updated (time_old s) "time_lbl" ++
      changed day_of_week_updated (day_of_week_old s) "day_of_wk_lbl" ++
      changed date_updated (date_old s) "date_lbl")%list /\
   timers (trace (tick cfg world) s) = [After 200 "tick"]) /\
  (locale_name world (UI_LOCALE cfg) = None ->
   outcome (tick cfg world) s = Raise LocaleError /\
   final (tick cfg world) s = s /\
   trace (tick cfg world) s = []).
Proof.
  split.
  - intros lc Hlc. unfold outcome, final, trace. rewrite tick_run.
    unfold formatted. rewrite Hlc. simpl.
    destruct (String.eqb _ (time_old s));
      destruct (String.eqb _ (day_of_week_old s));
      destruct (String.eqb _ (date_old s)); done.
  - intros Hlc. unfold outcome, final, trace. rewrite tick_run.
    unfold formatted. by rewrite Hlc.
Qed.

Lemma tick_updates_changed_witness :
  locale_name Sample.offline (UI_LOCALE constants) = Some "es_AR.UTF-8" /\
  redraws (trace (tick constants Sample.offline) (init "C")) =
    [Configure "time_lbl" (text (JStr "es_AR.UTF-8:%I:%M%p"));
     Configure "day_of_wk_lbl" (text (JStr "es_AR.UTF-8:%A"));
     Configure "date_lbl" (text (JStr "es_AR.UTF-8:%b %d, %Y"))] /\
  timers (trace (tick constants Sample.offline) (init "C")) = [After 200 "tick"] /\
  locale_name Sample.unsupported_locale (UI_LOCALE constants) = None /\
  trace (tick constants Sample.unsupported_locale) (init "C") = [].
Proof.
  pose proof (tick_updates_changed constants Sample.offline (init "C"))
    as [H _].
  specialize (H "es_AR.UTF-8" eq_refl).
  destruct H as (_ & _ & _ & _ & _ & _ & _ & _ & H1 & H2).
  pose proof (tick_updates_changed constants Sample.unsupported_locale (init "C"))
    as [_ H].
  specialize (H eq_refl). destruct H as (_ & _ & H3).
  split; [reflexivity|]. split; [exact H1|]. split; [exact H2|].
  split; [reflexivity|exact H3].
Defined.

End ClockFacts.

(** ** The news widget *)

Module NewsFacts.
Import News.

Section Loops.
Variables (cfg : Config) (world : World).

(** The loop over the children destroys them all. *)
Lemma destroy_all ws :
  for_each ws destroy {| headlines_container := ws |} =
    (Ok tt, {| headlines_container := [] |},
     List.repeat Destroy (length ws)).
Proof.
  induction ws as [|w ws IH]; [done|].
  simpl. unfold destroy at 1. run. simpl.
  rewrite decide_True by done. by rewrite IH.
Qed.

Lemma newest_snoc f ws w :
  newest f {| headlines_container := (ws ++ [w])%list |} =
    {| headlines_container := (ws ++ [f w])%list |}.
Proof.
  unfold newest. simpl. rewrite List.rev_app_distr. simpl.
  by rewrite List.rev_involutive.
Qed.

(** One round of the loop over the posts. *)
Lemma build_one x ws :
  image_ok world "assets/Newspaper.png" = true ->
  (event_name ← post_title (Entry (Some x));
   NewsHeadline_init world event_name;;
   pack) {| headlines_container := ws |} =
  (Ok tt, {| headlines_container := (ws ++ [row x])%list |},
   [Open "assets/Newspaper.png"; Pack]).
Proof.
  intros Hok. unfold NewsHeadline_init, pack, post_title, new_frame.
  run. simpl. rewrite Hok. simpl. by rewrite !newest_snoc.
Qed.

(** The loop over the posts appends one packed row per title. *)
Lemma build_all titles ws :
  titles = [] \/ image_ok world "assets/Newspaper.png" = true ->
  exists tr,
    for_each (List.map (fun s => Entry (Some s)) titles)
      (fun post =>
         event_name ← post_title post;
         NewsHeadline_init world event_name;;
         pack)
      {| headlines_container := ws |} =
    (Ok tt, {| headlines_container := (ws ++ List.map row titles)%list |}, tr).
Proof.
  intros Hok. revert ws. induction titles as [|x titles IH]; intros ws.
  - exists []. simpl. by rewrite app_nil_r.
  - destruct Hok as [|Hok]; [done|].
    destruct (IH (or_intror Hok) (ws ++ [row x])%list) as (tr & Hrun).
    eexists. simpl.
    eapply run_seq; [by apply build_one|].
    rewrite Hrun. by rewrite <- app_assoc.
Qed.

(** The loop over the posts completes only if each post has a title and,
    unless there is no post, the newspaper icon loads. *)
Lemma build_inv posts s s' tr :
  for_each posts
    (fun post =>
       event_name ← post_title post;
       NewsHeadline_init world event_name;;
       pack) s = (Ok tt, s', tr) ->
  Forall (fun post => is_Some (title post)) posts /\
  (posts = [] \/ image_ok world "assets/Newspaper.png" = true).
Proof.
  revert s tr. induction posts as [|[o] posts IH]; intros [ws] tr H.
  - split; [constructor | by left].
  - cbn [for_each] in H.
    apply (bind_inv (S:=t)) in H
      as [(e & _ & ?) | (a & s1 & t1 & t2 & Hone & Hrest & _)]; [done|].
    destruct o as [x|].
    + destruct (image_ok world "assets/Newspaper.png") eqn:Hok.
      * apply IH in Hrest as [Hrest _].
        split; [constructor; [by eexists | done] | by right].
      * revert Hone. unfold NewsHeadline_init, pack, post_title, new_frame.
        run. simpl. by rewrite Hok.
    + revert Hone. unfold post_title. run. done.
Qed.

Lemma titled (posts : list entry) :
  Forall (fun post => is_Some (title post)) posts ->
  exists titles,
    posts = List.map (fun s => Entry (Some s)) titles /\
    List.map title posts = List.map Some titles.
Proof.
  induction 1 as [|[o] posts [x Hx] _ (titles & -> & IH)].
  - by exists [].
  - simpl in Hx. subst o. exists (x :: titles). simpl. by rewrite IH.
Qed.

Lemma displayed_rows titles :
  displayed {| headlines_container := List.map row titles |} =
  List.map (fun s => (Some (Photo "assets/Newspaper.png" 25 25), Some s)) titles.
Proof.
  unfold displayed. simpl. induction titles as [|x titles IH]; [done|].
  simpl. by rewrite IH.
Qed.

(** A poll of a feed whose first five posts have titles. *)
Lemma get_headlines_try_ok s posts titles :
  feed world (headlines_url cfg) = Some posts ->
  take 5 posts = List.map (fun s => Entry (Some s)) titles ->
  titles = [] \/ image_ok world "assets/Newspaper.png" = true ->
  exists tr,
    get_headlines_try cfg world s =
      (Ok tt, {| headlines_container := List.map row titles |}, tr).
Proof.
  intros Hfeed Htake Hok. destruct s as [ws].
  destruct (build_all titles [] Hok) as (tr & Hbuild).
  eexists. unfold get_headlines_try.
  eapply run_seq; [reflexivity|]. simpl.
  eapply run_seq; [apply destroy_all|].
  fold (headlines_url cfg).
  eapply run_seq.
  { unfold feedparser_parse. run. by rewrite Hfeed. }
  rewrite Htake. exact Hbuild.
Qed.

(** A poll that completes has run the loop over the first five posts of
    the feed to its end. *)
Lemma get_headlines_try_inv s posts :
  feed world (headlines_url cfg) = Some posts ->
  outcome (get_headlines_try cfg world) s = Ok tt ->
  Forall (fun post => is_Some (title post)) (take 5 posts) /\
  (take 5 posts = [] \/ image_ok world "assets/Newspaper.png" = true).
Proof.
  intros Hfeed H.
  pose proof (run_split (get_headlines_try cfg world) s) as Hrun.
  rewrite H in Hrun. unfold get_headlines_try in Hrun.
  apply bind_inv in Hrun
    as [(e & _ & ?) | (ws & s1 & t1 & t2 & _ & Hrun & _)]; [done|].
  apply bind_inv in Hrun
    as [(e & _ & ?) | ([] & s2 & t3 & t4 & _ & Hrun & _)]; [done|].
  fold (headlines_url cfg) in Hrun.
  apply bind_inv in Hrun
    as [(e & _ & ?) | (entries & s3 & t5 & t6 & Hparse & Hrun & _)]; [done|].
  revert Hparse. unfold feedparser_parse. run. rewrite Hfeed.
  intros [= <- <- _]. by eapply build_inv.
Qed.

Lemma get_headlines_ok s s' tr :
  get_headlines_try cfg world s = (Ok tt, s', tr) ->
  get_headlines cfg world s = (Ok tt, s', (tr ++ [After 600000 "get_headlines"])%list).
Proof. intros H. unfold get_headlines. run. by rewrite H. Qed.

(** A poll whose feed cannot be fetched. *)
Lemma get_headlines_unfetched s :
  feed world (headlines_url cfg) = None ->
  get_headlines cfg world s =
    (Ok tt, {| headlines_container := [] |},
     (List.repeat Destroy (length (headlines_container s)) ++
      [Parse (headlines_url cfg); PrintExc OSError;
       Print OSError ". Cannot get news."; After 600000 "get_headlines"])%list).
Proof.
  intros Hfeed. destruct s as [ws].
  assert (get_headlines_try cfg world {| headlines_container := ws |} =
          (Raise OSError, {| headlines_container := [] |},
           ([] ++ List.repeat Destroy (length ws) ++
            [Parse (headlines_url cfg)])%list)) as Htry.
  { unfold get_headlines_try.
    eapply run_seq; [reflexivity|]. simpl.
    eapply run_seq; [apply destroy_all|].
    fold (headlines_url cfg).
    unfold feedparser_parse. run. by rewrite Hfeed. }
  unfold get_headlines. run. rewrite Htry. simpl.
  by rewrite <- !app_assoc.
Qed.
End Loops.

(** C7, as stated, fails: a feed of eight titled posts that is fetched
    where the newspaper icon cannot be opened leaves no headline on screen,
    and a fetched feed of eight posts whose third has no title leaves
    two. *)
Lemma get_headlines_fewer_than_five :
  feed (Sample.world None false
          (Some (Sample.entries ["a"; "b"; "c"; "d"; "e"; "f"; "g"; "h"])))
       (headlines_url constants) =
    Some (Sample.entries ["a"; "b"; "c"; "d"; "e"; "f"; "g"; "h"]) /\
  displayed
    (final (get_headlines constants
              (Sample.world None false
                 (Some (Sample.entries ["a"; "b"; "c"; "d"; "e"; "f"; "g"; "h"]))))
           (Sample.after_headlines ["x"; "y"])) = [] /\
  feed (Sample.world None true
          (Some ([Entry (Some "a"); Entry (Some "b"); Entry None] ++
                 Sample.entries ["d"; "e"; "f"; "g"; "h"])%list))
       (headlines_url constants) =
    Some ([Entry (Some "a"); Entry (Some "b"); Entry None] ++
          Sample.entries ["d"; "e"; "f"; "g"; "h"])%list /\
  displayed
    (final (get_headlines constants
              (Sample.world None true
                 (Some ([Entry (Some "a"); Entry (Some "b"); Entry None] ++
                        Sample.entries ["d"; "e"; "f"; "g"; "h"])%list)))
           (Sample.after_headlines ["x"; "y"])) =
    [(Some (Photo "assets/Newspaper.png" 25 25), Some "a");
     (Some (Photo "assets/Newspaper.png" 25 25), Some "b")].
Proof. vm_compute. done. Qed.

(** C7, as amended: when the feed is fetched, a poll that completes leaves
    on screen the rows of the first five posts in the order of the feed:
    five rows for a feed of five posts or more, all the posts of a shorter
    feed; and the poll does complete when these posts have titles and the
    newspaper icon loads. *)
Theorem get_headlines_first_five cfg world s posts :
  feed world (headlines_url cfg) = Some posts ->
  (Forall (fun post => is_Some (title post)) (take 5 posts) ->
   image_ok world "assets/Newspaper.png" = true ->
   outcome (get_headlines_try cfg world) s = Ok tt) /\
  (outcome (get_headlines_try cfg world) s = Ok tt ->
   displayed (final (get_headlines cfg world) s) =
     List.map (fun post => (Some (Photo "assets/Newspaper.png" 25 25), title post))
       (take 5 posts) /\
   (5 <= length posts ->
    length (displayed (final (get_headlines cfg world) s)) = 5) /\
   (length posts < 5 ->
    displayed (final (get_headlines cfg world) s) =
      List.map (fun post => (Some (Photo "assets/Newspaper.png" 25 25), title post))
        posts)).
Proof.
  intros Hfeed. split.
  - intros Htitles Hok.
    destruct (titled _ Htitles) as (titles & Htake & _).
    destruct (get_headlines_try_ok cfg world s posts titles Hfeed Htake
                (or_intror Hok)) as [tr Htry].
    unfold outcome. by rewrite Htry.
  - intros Hdone.
    destruct (get_headlines_try_inv cfg world s posts Hfeed Hdone)
      as [Htitles Hok].
    destruct (titled _ Htitles) as (titles & Htake & Hmap).
    assert (titles = [] \/ image_ok world "assets/Newspaper.png" = true) as Hok'.
    { destruct Hok as [Hnil|]; [left|by right].
      rewrite Hnil in Htake. by destruct titles. }
    destruct (get_headlines_try_ok cfg world s posts titles Hfeed Htake Hok')
      as [tr Htry].
    assert (displayed (final (get_headlines cfg world) s) =
            List.map (fun post => (Some (Photo "assets/Newspaper.png" 25 25), title post))
              (take 5 posts)) as Hrows.
    { unfold final. rewrite (get_headlines_ok _ _ _ _ _ Htry). simpl.
      rewrite displayed_rows.
      rewrite <- (List.map_map title
                    (fun o => (Some (Photo "assets/Newspaper.png" 25 25), o))).
      rewrite Hmap. by rewrite List.map_map. }
    split; [done|]. split.
    + intros Hlen. rewrite Hrows, List.length_map, length_take. lia.
    + intros Hlen. rewrite Hrows. by rewrite take_ge by lia.
Qed.

Lemma get_headlines_first_five_witness :
  feed (Sample.answering Sample.clouds
          (Some (Sample.entries ["a"; "b"; "c"; "d"; "e"; "f"; "g"; "h"])))
       (headlines_url constants) =
    Some (Sample.entries ["a"; "b"; "c"; "d"; "e"; "f"; "g"; "h"]) /\
  displayed (final (get_headlines constants
                      (Sample.answering Sample.clouds
                         (Some (Sample.entries ["a"; "b"; "c"; "d"; "e"; "f"; "g"; "h"]))))
                   (Sample.after_headlines ["x"; "y"])) =
    [(Some (Photo "assets/Newspaper.png" 25 25), Some "a");
     (Some (Photo "assets/Newspaper.png" 25 25), Some "b");
     (Some (Photo "assets/Newspaper.png" 25 25), Some "c");
     (Some (Photo "assets/Newspaper.png" 25 25), Some "d");
     (Some (Photo "assets/Newspaper.png" 25 25), Some "e")].
Proof.
  split; [reflexivity|].
  assert (Forall (fun post => is_Some (title post))
            (take 5 (Sample.entries ["a"; "b"; "c"; "d"; "e"; "f"; "g"; "h"])))
    as Htitles.
  { simpl. repeat constructor; eauto. }
  pose proof (get_headlines_first_five constants
                (Sample.answering Sample.clouds
                   (Some (Sample.entries ["a"; "b"; "c"; "d"; "e"; "f"; "g"; "h"])))
                (Sample.after_headlines ["x"; "y"])
                (Sample.entries ["a"; "b"; "c"; "d"; "e"; "f"; "g"; "h"])
                eq_refl) as [Hdone Hrows].
  exact (proj1 (Hrows (Hdone Htitles eq_refl))).
Defined.

(** C1, as stated, fails: a poll whose feed cannot be fetched starts from
    two rows on screen and ends with none. *)
Lemma get_headlines_failure_clears_rows :
  feed Sample.offline (headlines_url constants) = None /\
  displayed (Sample.after_headlines ["x"; "y"]) =
    [(Some (Photo "assets/Newspaper.png" 25 25), Some "x");
     (Some (Photo "assets/Newspaper.png" 25 25), Some "y")] /\
  displayed (final (get_headlines constants Sample.offline)
                   (Sample.after_headlines ["x"; "y"])) = [] /\
  displayed (final (get_headlines constants Sample.offline)
                   (Sample.after_headlines ["x"; "y"])) <>
    displayed (Sample.after_headlines ["x"; "y"]).
Proof. vm_compute. done. Qed.

(** C1, as amended: a poll whose feed cannot be fetched builds no row, but
    it has destroyed the rows of the previous poll before fetching: no row
    is on screen after it. The failure is logged, and the next poll is set
    to 600000 ms later. *)
Theorem get_headlines_failure cfg world s :
  feed world (headlines_url cfg) = None ->
  outcome (get_headlines cfg world) s = Ok tt /\
  displayed (final (get_headlines cfg world) s) = [] /\
  trace (get_headlines cfg world) s =
    (List.repeat Destroy (length (headlines_container s)) ++
     [Parse (headlines_url cfg); PrintExc OSError;
      Print OSError ". Cannot get news."; After 600000 "get_headlines"])%list /\
  timers (trace (get_headlines cfg world) s) = [After 600000 "get_headlines"].
Proof.
  intros Hfeed. unfold outcome, final, trace.
  rewrite (get_headlines_unfetched _ _ _ Hfeed). simpl.
  split; [done|]. split; [done|]. split; [done|].
  unfold timers. rewrite List.filter_app. simpl.
  induction (length (headlines_container s)); [done|]. by simpl.
Qed.

Lemma get_headlines_failure_witness :
  feed Sample.offline (headlines_url constants) = None /\
  displayed (final (get_headlines constants Sample.offline)
                   (Sample.after_headlines ["x"; "y"])) = [] /\
  timers (trace (get_headlines constants Sample.offline)
                (Sample.after_headlines ["x"; "y"])) = [After 600000 "get_headlines"].
Proof.
  split; [reflexivity|].
  pose proof (get_headlines_failure constants Sample.offline
                (Sample.after_headlines ["x"; "y"]) eq_refl) as (_ & H1 & _ & H2).
  split; [exact H1 | exact H2].
Defined.

End NewsFacts.

(** * More properties *)

(** ** The locale and the clock *)

Module ClockMore.
Import Clock ClockFacts.

(** X1: whatever happens inside [with setlocale(name):], the locale of the
    process is afterwards what it was before. When the locale can be set,
    the body runs under it, and its outcome and its calls are those of the
    [with] statement; when setting it raises, the body does not run: the
    statement raises [locale.Error], nothing is called and nothing
    changes. *)
Theorem setlocale_restores {A} world name (body : string -> M t A) s :
  LC_ALL (final (setlocale world LC_ALL set_LC_ALL name body) s) = LC_ALL s /\
  match locale_name world name with
  | Some current =>
      outcome (setlocale world LC_ALL set_LC_ALL name body) s =
        outcome (body current) (set_LC_ALL current s) /\
      trace (setlocale world LC_ALL set_LC_ALL name body) s =
        trace (body current) (set_LC_ALL current s)
  | None =>
      setlocale world LC_ALL set_LC_ALL name body s = (Raise LocaleError, s, [])
  end.
Proof.
  unfold setlocale, locale_setlocale.
  destruct (locale_name world name) as [current|]; run.
  - destruct (body _ _) as [[[a|e] s1] tr]; simpl; by rewrite ?app_nil_r.
  - by destruct s.
Qed.

Lemma tick_synced cfg world s :
  clock_synced s -> clock_synced (final (tick cfg world) s).
Proof.
  intros (H1 & H2 & H3). unfold final. rewrite tick_run.
  destruct (formatted cfg world) as [[[t d] dt]|]; [|done]. simpl.
  unfold clock_synced. simpl.
  repeat split; case_match; try done.
  - apply String.eqb_eq in H. by rewrite H, H1.
  - apply String.eqb_eq in H. by rewrite H, H2.
  - apply String.eqb_eq in H. by rewrite H, H3.
Qed.

Lemma ticks_synced cfg worlds s :
  clock_synced s -> clock_synced (ticks cfg worlds s).
Proof.
  revert s. induction worlds as [|w worlds IH]; intros s Hs; [done|].
  simpl. apply IH. by apply tick_synced.
Qed.

Lemma ticks_LC_ALL cfg worlds s : LC_ALL (ticks cfg worlds s) = LC_ALL s.
Proof.
  revert s. induction worlds as [|w worlds IH]; intros s; [done|].
  simpl. rewrite IH. unfold final. rewrite tick_run.
  by destruct (formatted cfg w) as [[[t d] dt]|].
Qed.

(** X2: from its construction on, after every tick that could set the
    locale the three labels of the clock show the time, the weekday and
    the date as that tick formatted them; a tick that could not leaves the
    clock as it was; and after every tick the locale of the process is the
    one the program started with. *)
Theorem ticks_show cfg lc worlds world :
  LC_ALL (ticks cfg (worlds ++ [world]) (init lc)) = lc /\
  match formatted cfg world with
  | Some (time_updated, day_of_week_updated, date_updated) =>
      time_lbl (ticks cfg (worlds ++ [world]) (init lc)) = JStr time_updated /\
      day_of_wk_lbl (ticks cfg (worlds ++ [world]) (init lc)) =
        JStr day_of_week_updated /\
      date_lbl (ticks cfg (worlds ++ [world]) (init lc)) = JStr date_updated
  | None =>
      ticks cfg (worlds ++ [world]) (init lc) = ticks cfg worlds (init lc)
  end.
Proof.
  split; [by rewrite ticks_LC_ALL|].
  unfold ticks. rewrite foldl_app. simpl. fold (ticks cfg worlds (init lc)).
  pose proof (tick_synced cfg world _
                (ticks_synced cfg worlds (init lc) ltac:(done)))
    as (H1 & H2 & H3).
  revert H1 H2 H3. unfold final. rewrite tick_run.
  destruct (formatted cfg world) as [[[t d] dt]|]; [|done].
  simpl. by intros -> -> ->.
Qed.

(** X3: a tick that formats the same three strings as the tick before it
    calls no label, changes nothing in the clock, and only sets the timer
    again. *)
Theorem tick_idempotent cfg world1 world2 s strings :
  formatted cfg world1 = Some strings ->
  formatted cfg world2 = Some strings ->
  trace (tick cfg world2) (final (tick cfg world1) s) = [After 200 "tick"] /\
  final (tick cfg world2) (final (tick cfg world1) s) = final (tick cfg world1) s.
Proof.
  intros H1 H2. unfold trace, final. rewrite !tick_run, H1, H2.
  destruct strings as [[t d] dt]. simpl.
  by rewrite !String.eqb_refl.
Qed.

Lemma tick_idempotent_witness :
  trace (tick constants Sample.offline)
        (final (tick constants Sample.offline) (init "C")) = [After 200 "tick"].
Proof.
  by apply (tick_idempotent constants Sample.offline Sample.offline (init "C")
              ("es_AR.UTF-8:%I:%M%p", "es_AR.UTF-8:%A", "es_AR.UTF-8:%b %d, %Y")).
Defined.

End ClockMore.

(** ** The weather widget, over several polls *)

Module WeatherMore.
Import Weather WeatherFacts.

(** Unfold [redraw] down to the tests it makes. *)
Ltac redraw_cases :=
  unfold redraw, config, load_photo;
  cbv [mbind M_bind bind mret M_ret ret raise lift gets modify emit when
       set_icon set_currently set_forecast set_temperature set_actual_location
       show temperature forecast actual_location currently icon
       temperature_lbl icon_lbl currently_lbl forecast_lbl actual_location_lbl
       outcome final trace fst snd negb].

Lemma eq_str_inv a t : Py.eq a (JStr t) = true -> a = JStr t.
Proof.
  destruct a; simpl; try done.
  intros H. by apply String.eqb_eq in H as ->.
Qed.

Section Polls.
Variables (rt : Runtime) (cfg : Config) (world : World).

(** [redraw] keeps the text labels and their caches together. *)
Lemma redraw_synced r s : synced s -> synced (final (redraw world r) s).
Proof.
  destruct s as [t0 f0 a0 c0 i0 tl il cl fl al].
  unfold synced. simpl. intros (-> & Hc & Hf & Ha & Hcomma).
  redraw_cases.
  destruct (icon2 r) as [p|];
    [destruct (i0 =? p); simpl; [|destruct (image_ok world p); simpl]|];
    try done;
    destruct (Py.eq c0 (currently2 r)); simpl;
    destruct (Py.eq f0 (forecast2 r)); simpl;
    destruct (t0 =? temperature2 r); simpl;
    destruct (Py.eq a0 (actual_location2 r)); simpl;
    try (destruct (Py.eq (actual_location2 r) (JStr ", ")) eqn:?; simpl);
    (split; [done|]);
    (split; [first [done | intros ?; by destruct (currently2 r)]|]);
    (split; [first [done | intros ?; by destruct (forecast2 r)]|]);
    (split; [first [done | intros ?; by destruct (actual_location2 r)]|]);
    done.
Qed.

(** The state a poll ends in is the one its [try] ends in. *)
Lemma get_weather_final s :
  final (get_weather rt cfg world) s = final (get_weather_try rt cfg world) s.
Proof.
  unfold final.
  destruct (get_weather_try rt cfg world s) as [[[[]|e] s'] tr] eqn:H.
  - by rewrite (get_weather_ok _ _ _ _ _ _ H).
  - by rewrite (get_weather_raise _ _ _ _ _ _ _ H).
Qed.

(** Where a [try] that reads [r] ends. *)
Lemma get_weather_try_final s r :
  outcome (extract rt cfg world) s = Ok r ->
  get_weather_try rt cfg world s =
    (outcome (redraw world r) s, final (redraw world r) s,
     (trace (extract rt cfg world) s ++ trace (redraw world r) s)%list).
Proof.
  intros H. pose proof (extract_reads_only rt cfg world s) as Hs.
  unfold get_weather_try.
  rewrite (bind_ok _ _ s r s (trace (extract rt cfg world) s)).
  - done.
  - rewrite (run_split (extract rt cfg world) s) at 1. by rewrite H, Hs.
Qed.

Lemma get_weather_try_unread s e :
  outcome (extract rt cfg world) s = Raise e ->
  get_weather_try rt cfg world s =
    (Raise e, s, trace (extract rt cfg world) s).
Proof.
  intros H. pose proof (extract_reads_only rt cfg world s) as Hs.
  unfold get_weather_try. apply bind_raise.
  rewrite (run_split (extract rt cfg world) s) at 1. by rewrite H, Hs.
Qed.

Lemma get_weather_synced s :
  synced s -> synced (final (get_weather rt cfg world) s).
Proof.
  intros Hs. rewrite get_weather_final.
  destruct (outcome (extract rt cfg world) s) as [r|e] eqn:H.
  - unfold final. rewrite (get_weather_try_final _ _ H). simpl.
    by apply redraw_synced.
  - unfold final. by rewrite (get_weather_try_unread _ _ H).
Qed.

(** What the text labels show after a [redraw] that completes. *)
Lemma redraw_shows r s :
  synced s ->
  outcome (redraw world r) s = Ok tt ->
  is_str (currently2 r) = true ->
  is_str (forecast2 r) = true ->
  is_str (actual_location2 r) = true ->
  temperature_lbl (final (redraw world r) s) = JStr (temperature2 r) /\
  currently_lbl (final (redraw world r) s) = currently2 r /\
  forecast_lbl (final (redraw world r) s) = forecast2 r /\
  actual_location_lbl (final (redraw world r) s) =
    (if Py.eq (actual_location2 r) (JStr ", ")
     then JStr "Cannot Pinpoint Location" else actual_location2 r).
Proof.
  destruct s as [t0 f0 a0 c0 i0 tl il cl fl al].
  unfold synced. simpl. intros (-> & Hc & Hf & Ha & Hcomma).
  destruct (currently2 r) as [| | | |c2| |] eqn:Ec; try done.
  destruct (forecast2 r) as [| | | |f2| |] eqn:Ef; try done.
  destruct (actual_location2 r) as [| | | |a2| |] eqn:Ea; try done.
  intros H _ _ _. revert H.
  redraw_cases. rewrite Ec, Ef, Ea.
  destruct (icon2 r) as [p|];
    [destruct (i0 =? p); simpl; [|destruct (image_ok world p); simpl]|];
    try done;
    (destruct (Py.eq c0 (JStr c2)) eqn:H1; simpl;
     [apply eq_str_inv in H1; subst c0;
      specialize (Hc ltac:(done)); subst cl|]);
    (destruct (Py.eq f0 (JStr f2)) eqn:H2; simpl;
     [apply eq_str_inv in H2; subst f0;
      specialize (Hf ltac:(done)); subst fl|]);
    (destruct (t0 =? temperature2 r) eqn:H3; simpl;
     [apply String.eqb_eq in H3; subst t0|]);
    (destruct (Py.eq a0 (JStr a2)) eqn:H4;
     [apply eq_str_inv in H4; subst a0;
      specialize (Ha ltac:(done)); subst al;
      simpl in Hcomma; rewrite ?Hcomma|];
     simpl);
    try (destruct (a2 =? ", ") eqn:?; simpl);
    done.
Qed.
End Polls.

Lemma polls_synced rt cfg worlds s :
  synced s -> synced (polls rt cfg worlds s).
Proof.
  revert s. induction worlds as [|w worlds IH]; intros s Hs; [done|].
  simpl. apply IH. by apply get_weather_synced.
Qed.

(** X4: from the construction of the frame on, whatever the polls meet
    (answers, failures, images that do not load), the temperature label
    shows the cached temperature, and each of the three other text labels
    shows what the frame has cached for it unless that is [None]: a null
    field is cached, but Tk is given no text and the label keeps its own;
    and the cached place is never a comma and a space. *)
Theorem labels_follow_caches rt cfg worlds :
  let s := polls rt cfg worlds Weather.init in
  temperature_lbl s = JStr (temperature s) /\
  (currently s <> JNull -> currently_lbl s = currently s) /\
  (forecast s <> JNull -> forecast_lbl s = forecast s) /\
  (actual_location s <> JNull -> actual_location_lbl s = actual_location s) /\
  Py.eq (actual_location s) (JStr ", ") = false.
Proof.
  intros s. apply (polls_synced rt cfg worlds Weather.init). by unfold synced.
Qed.

Lemma labels_follow_caches_witness :
  let s := polls Sample.rt constants
             [Sample.answering Sample.null_condition None;
              Sample.offline;
              Sample.answering Sample.clouds None] Weather.init in
  currently s <> JNull /\ currently_lbl s = currently s.
Proof.
  pose proof (labels_follow_caches Sample.rt constants
                [Sample.answering Sample.null_condition None;
                 Sample.offline;
                 Sample.answering Sample.clouds None]) as (_ & H & _).
  split; [vm_compute; discriminate|].
  apply H. vm_compute. discriminate.
Defined.

(** A null condition after an answer with "Clouds": the cache becomes
    [None] and the label goes on showing "Clouds". *)
Lemma null_field_keeps_label :
  let s := polls Sample.rt constants
             [Sample.answering Sample.clouds None;
              Sample.answering Sample.null_condition None] Weather.init in
  currently s = JNull /\ currently_lbl s = JStr "Clouds".
Proof. vm_compute. done. Qed.

(** X5: after a poll that completes, the text labels show what the poll
    read, when these are strings: the temperature, the condition, the
    description and the place, with "Cannot Pinpoint Location" for a place
    named by a comma and a space. *)
Theorem completed_poll_shows_reading rt cfg worlds world r :
  outcome (extract rt cfg world) (polls rt cfg worlds Weather.init) = Ok r ->
  outcome (get_weather_try rt cfg world) (polls rt cfg worlds Weather.init) = Ok tt ->
  is_str (currently2 r) = true ->
  is_str (forecast2 r) = true ->
  is_str (actual_location2 r) = true ->
  temperature_lbl (polls rt cfg (worlds ++ [world]) Weather.init) =
    JStr (temperature2 r) /\
  currently_lbl (polls rt cfg (worlds ++ [world]) Weather.init) = currently2 r /\
  forecast_lbl (polls rt cfg (worlds ++ [world]) Weather.init) = forecast2 r /\
  actual_location_lbl (polls rt cfg (worlds ++ [world]) Weather.init) =
    (if Py.eq (actual_location2 r) (JStr ", ")
     then JStr "Cannot Pinpoint Location" else actual_location2 r).
Proof.
  intros Hr Hdone Hc Hf Ha.
  unfold polls. rewrite foldl_app. simpl. fold (polls rt cfg worlds Weather.init).
  set (s := polls rt cfg worlds Weather.init) in *.
  rewrite get_weather_final. unfold final at 1 2 3 4.
  unfold outcome in Hdone.
  rewrite (get_weather_try_final _ _ _ _ _ Hr) in *. simpl in *.
  apply redraw_shows; try done. apply polls_synced. by unfold synced.
Qed.


Lemma completed_poll_shows_reading_witness :
  actual_location_lbl
    (polls Sample.rt constants
       ([Sample.offline; Sample.answering Sample.clouds None] ++
        [Sample.answering Sample.unnamed_place None]) Weather.init) =
    JStr "Cannot Pinpoint Location" /\
  currently_lbl
    (polls Sample.rt constants
       ([Sample.offline; Sample.answering Sample.clouds None] ++
        [Sample.answering Sample.unnamed_place None]) Weather.init) =
    JStr "Clouds".
Proof.
  pose proof (completed_poll_shows_reading Sample.rt constants
                [Sample.offline; Sample.answering Sample.clouds None]
                (Sample.answering Sample.unnamed_place None)
                {| temperature2 := "27°"; currently2 := JStr "Clouds";
                   forecast2 := JStr "few clouds";
                   actual_location2 := JStr ", ";
                   icon2 := Some "assets/PartlySunny.png" |}) as H.
  destruct H as (_ & H1 & _ & H2).
  - vm_compute. reflexivity.
  - vm_compute. reflexivity.
  - reflexivity.
  - reflexivity.
  - reflexivity.
  - split; [exact H2|exact H1].
Defined.

Section Icons.
Variables (rt : Runtime) (cfg : Config) (world : World).

(** Without an icon for the code, [redraw] completes, clears the icon label
    and leaves the cached icon path as it was. *)
Lemma redraw_icon_none r s :
  icon2 r = None ->
  outcome (redraw world r) s = Ok tt /\
  icon (final (redraw world r) s) = icon s /\
  icon_lbl (final (redraw world r) s) = None /\
  Forall (fun ev => is_open ev = false) (trace (redraw world r) s).
Proof.
  intros Hi. destruct s as [t0 f0 a0 c0 i0 tl il cl fl al].
  redraw_cases. rewrite Hi.
  destruct (Py.eq c0 (currently2 r)); simpl;
    destruct (Py.eq f0 (forecast2 r)); simpl;
    destruct (t0 =? temperature2 r); simpl;
    destruct (Py.eq a0 (actual_location2 r)); simpl;
    try destruct (Py.eq (actual_location2 r) (JStr ", ")); simpl;
    repeat split; repeat constructor.
Qed.

(** With the icon path that is cached, [redraw] completes, opens no image
    and leaves the icon label as it was. *)
Lemma redraw_icon_cached r s :
  icon2 r = Some (icon s) ->
  outcome (redraw world r) s = Ok tt /\
  icon (final (redraw world r) s) = icon s /\
  icon_lbl (final (redraw world r) s) = icon_lbl s /\
  Forall (fun ev => is_open ev = false) (trace (redraw world r) s).
Proof.
  intros Hi. destruct s as [t0 f0 a0 c0 i0 tl il cl fl al].
  simpl in Hi. redraw_cases. rewrite Hi, String.eqb_refl. simpl.
  destruct (Py.eq c0 (currently2 r)); simpl;
    destruct (Py.eq f0 (forecast2 r)); simpl;
    destruct (t0 =? temperature2 r); simpl;
    destruct (Py.eq a0 (actual_location2 r)); simpl;
    try destruct (Py.eq (actual_location2 r) (JStr ", ")); simpl;
    repeat split; repeat constructor.
Qed.

(** With an icon path that is not the cached one and an image that does not
    load, [redraw] caches the path and stops there. *)
Lemma redraw_icon_unloaded r s p :
  icon2 r = Some p -> icon s <> p -> image_ok world p = false ->
  redraw world r s = (Raise OSError, set_icon p s, [Open p]).
Proof.
  intros Hi Hne Hok. apply String.eqb_neq in Hne.
  unfold redraw, config, load_photo. run. by rewrite Hi, Hne, Hok.
Qed.

(** [redraw] opens no image but the one of the reading, at most once. *)
Lemma redraw_opens r s :
  filter is_open (trace (redraw world r) s) = [] \/
  exists p, icon2 r = Some p /\
            filter is_open (trace (redraw world r) s) = [Open p].
Proof.
  destruct s as [t0 f0 a0 c0 i0 tl il cl fl al].
  redraw_cases.
  destruct (icon2 r) as [p|];
    [destruct (i0 =? p); simpl; [|destruct (image_ok world p); simpl]|];
    try (by right; exists p);
    destruct (Py.eq c0 (currently2 r)); simpl;
    destruct (Py.eq f0 (forecast2 r)); simpl;
    destruct (t0 =? temperature2 r); simpl;
    destruct (Py.eq a0 (actual_location2 r)); simpl;
    try destruct (Py.eq (actual_location2 r) (JStr ", ")); simpl;
    first [by left | by right; exists p].
Qed.

Lemma extract_opens s : filter is_open (trace (extract rt cfg world) s) = [].
Proof.
  pose proof (extract_emits rt cfg world (fun ev => is_open ev = false)
                ltac:(done) ltac:(done) s) as H.
  induction H as [|ev tr Hev _ IH]; [done|]. simpl.
  rewrite filter_cons. destruct (decide (is_open ev)) as [Ho|]; [|done].
  by rewrite Hev in Ho.
Qed.

(** The icon of a reading is a value of the table. *)
Lemma icon2_in_table s r p :
  outcome (extract rt cfg world) s = Ok r -> icon2 r = Some p ->
  exists code, icon_lookup !! code = Some p.
Proof.
  intros Hr Hp. unfold extract, outcome in Hr.
  rewrite run_bind in Hr.
  destruct (locate rt cfg world s) as [[[[url loc]|e] s1] t1]; [|done].
  assert (outcome (fetch rt world url) s1 = Ok r) as Hf.
  { unfold outcome. by destruct (fetch rt world url s1) as [[??]?]. }
  apply fetch_ok in Hf as (_ & _ & _ & icon_id & o & _ & _ & _ & _ & _ & Hget & Hi).
  rewrite Hp in Hi. destruct icon_id; simpl in Hget; simplify_eq.
  exists s0. destruct (icon_lookup !! s0) as [[|]|]; simpl in Hi; by simplify_eq.
Qed.

(** The images a poll opens. *)
Lemma get_weather_opens s :
  filter is_open (trace (get_weather rt cfg world) s) = [] \/
  exists r p,
    outcome (extract rt cfg world) s = Ok r /\ icon2 r = Some p /\
    filter is_open (trace (get_weather rt cfg world) s) = [Open p].
Proof.
  assert (forall tr tail,
            filter is_open tail = [] ->
            filter is_open (tr ++ tail)%list = filter is_open tr) as Htail.
  { intros tr tail H. by rewrite filter_app, H, app_nil_r. }
  destruct (outcome (extract rt cfg world) s) as [r|e] eqn:Hr.
  - pose proof (get_weather_try_final rt cfg world s r Hr) as Htry.
    assert (filter is_open (trace (get_weather rt cfg world) s) =
            filter is_open (trace (redraw world r) s)) as ->.
    { unfold trace at 1.
      destruct (outcome (redraw world r) s) as [[]|e] eqn:Ho.
      - rewrite (get_weather_ok _ _ _ _ _ _ Htry). simpl.
        rewrite Htail by done. by rewrite filter_app, extract_opens.
      - rewrite (get_weather_raise _ _ _ _ _ _ _ Htry). simpl.
        rewrite Htail by done. by rewrite filter_app, extract_opens. }
    destruct (redraw_opens r s) as [H|(p & Hp & H)]; [by left|].
    right. by exists r, p.
  - left. unfold trace.
    rewrite (get_weather_raise _ _ _ _ _ _ _
               (get_weather_try_unread rt cfg world s e Hr)). simpl.
    rewrite Htail by done. apply extract_opens.
Qed.
End Icons.

(** X6: once a poll with an icon code that the table does not map has
    cleared the icon, a later poll whose code maps to the path that was
    cached before opens no image and leaves the icon label empty: the icon
    that was showing does not come back with its code. *)
Theorem cleared_icon_stays_cleared rt cfg world1 world2 s r1 r2 :
  outcome (extract rt cfg world1) s = Ok r1 ->
  icon2 r1 = None ->
  outcome (extract rt cfg world2) (final (get_weather rt cfg world1) s) = Ok r2 ->
  icon2 r2 = Some (icon s) ->
  icon_lbl (final (get_weather rt cfg world1) s) = None /\
  icon_lbl (final (get_weather rt cfg world2)
                  (final (get_weather rt cfg world1) s)) = None /\
  filter is_open (trace (get_weather rt cfg world2)
                        (final (get_weather rt cfg world1) s)) = [].
Proof.
  intros H1 Hnone H2 Hsome.
  destruct (redraw_icon_none world1 r1 s Hnone) as (_ & Hicon & Hlbl & _).
  assert (final (get_weather rt cfg world1) s = final (redraw world1 r1) s) as Hs1.
  { rewrite get_weather_final. unfold final at 1.
    by rewrite (get_weather_try_final _ _ _ _ _ H1). }
  rewrite Hs1 in *. rewrite <- Hicon in Hsome.
  destruct (redraw_icon_cached world2 r2 _ Hsome) as (_ & _ & Hlbl2 & Hquiet).
  split; [done|]. split.
  - rewrite get_weather_final. unfold final at 1.
    rewrite (get_weather_try_final _ _ _ _ _ H2). simpl.
    by rewrite Hlbl2.
  - destruct (get_weather_opens rt cfg world2 (final (redraw world1 r1) s))
      as [H|(r & p & Hr & Hp & H)]; [done|].
    rewrite H2 in Hr. simplify_eq.
    destruct (redraw_opens world2 r (final (redraw world1 r1) s))
      as [Ho|(p' & Hp' & Ho)].
    + exfalso. clear -Hquiet H Ho H2.
      pose proof (get_weather_try_final rt cfg world2 _ r H2) as Htry.
      revert H. unfold trace at 1.
      destruct (outcome (redraw world2 r) (final (redraw world1 r1) s))
        as [[]|e] eqn:Hout.
      * rewrite (get_weather_ok _ _ _ _ _ _ Htry). simpl.
        rewrite !filter_app, extract_opens, Ho. done.
      * rewrite (get_weather_raise _ _ _ _ _ _ _ Htry). simpl.
        rewrite !filter_app, extract_opens, Ho. done.
    + exfalso. clear -Hquiet Ho.
      induction Hquiet as [|ev tr Hev _ IH]; [done|].
      rewrite filter_cons in Ho.
      destruct (decide (is_open ev)) as [Hd|]; [by rewrite Hev in Hd|auto].
Qed.

Lemma cleared_icon_stays_cleared_witness :
  icon_lbl (Sample.after_poll Sample.clouds) =
    Some (Photo "assets/PartlySunny.png" 100 100) /\
  icon_lbl (final (get_weather Sample.rt constants
                     (Sample.answering Sample.clouds None))
                  (final (get_weather Sample.rt constants
                            (Sample.answering Sample.unknown_icon None))
                         (Sample.after_poll Sample.clouds))) = None.
Proof.
  split; [vm_compute; reflexivity|].
  pose proof (cleared_icon_stays_cleared Sample.rt constants
                (Sample.answering Sample.unknown_icon None)
                (Sample.answering Sample.clouds None)
                (Sample.after_poll Sample.clouds)
                {| temperature2 := "27°"; currently2 := JStr "Clouds";
                   forecast2 := JStr "few clouds";
                   actual_location2 := JStr "Posadas"; icon2 := None |}
                Sample.clouds_reading) as H.
  destruct H as (_ & H & _).
  - vm_compute. reflexivity.
  - reflexivity.
  - vm_compute. reflexivity.
  - vm_compute. reflexivity.
  - exact H.
Defined.

(** X7: the images a poll opens are at most one, and its path is a value of
    the icon table: no path comes from what the network answers. *)
Theorem opens_only_table_assets rt cfg world s path :
  Open path ∈ trace (get_weather rt cfg world) s ->
  (exists code, icon_lookup !! code = Some path) /\
  filter is_open (trace (get_weather rt cfg world) s) = [Open path].
Proof.
  intros Hin.
  assert (Open path ∈ filter is_open (trace (get_weather rt cfg world) s)) as Hf.
  { apply list_elem_of_filter. by split. }
  destruct (get_weather_opens rt cfg world s) as [H|(r & p & Hr & Hp & H)].
  - rewrite H in Hf. by apply elem_of_nil in Hf.
  - rewrite H in Hf. apply list_elem_of_singleton in Hf. simplify_eq.
    split; [by eapply icon2_in_table|done].
Qed.

Lemma opens_only_table_assets_witness :
  Open "assets/PartlySunny.png" ∈
    trace (get_weather Sample.rt constants (Sample.answering Sample.clouds None))
          Weather.init /\
  exists code, icon_lookup !! code = Some "assets/PartlySunny.png".
Proof.
  assert (Open "assets/PartlySunny.png" ∈
            trace (get_weather Sample.rt constants
                     (Sample.answering Sample.clouds None)) Weather.init) as Hin.
  { vm_compute. apply list_elem_of_In. simpl. auto. }
  split; [exact Hin|].
  exact (proj1 (opens_only_table_assets _ _ _ _ _ Hin)).
Defined.


(** X8: a poll that fails before it reaches the labels (no answer, a body
    that is not JSON, a missing key, a temperature that is no number) leaves
    the frame exactly as it was, caches included, and calls no label and
    opens no image. *)
Theorem unread_poll_changes_nothing rt cfg world s e :
  outcome (extract rt cfg world) s = Raise e ->
  final (get_weather rt cfg world) s = s /\
  redraws (trace (get_weather rt cfg world) s) = [] /\
  filter is_open (trace (get_weather rt cfg world) s) = [].
Proof.
  intros H.
  pose proof (get_weather_raise _ _ _ _ _ _ _
                (get_weather_try_unread rt cfg world s e H)) as Hrun.
  unfold final, trace. rewrite Hrun. simpl. split; [done|]. split.
  - apply redraws_none. apply Forall_app. split; [|by repeat constructor].
    by apply extract_emits.
  - rewrite filter_app, extract_opens. done.
Qed.

Lemma unread_poll_changes_nothing_witness :
  outcome (extract Sample.rt constants Sample.garbled)
          (Sample.after_poll Sample.clouds) = Raise JSONDecodeError /\
  final (get_weather Sample.rt constants Sample.garbled)
        (Sample.after_poll Sample.clouds) = Sample.after_poll Sample.clouds.
Proof.
  assert (outcome (extract Sample.rt constants Sample.garbled)
            (Sample.after_poll Sample.clouds) = Raise JSONDecodeError) as H.
  { vm_compute. reflexivity. }
  split; [exact H|].
  exact (proj1 (unread_poll_changes_nothing _ _ _ _ _ H)).
Defined.

(** X9: when the image of a new icon does not load, the poll has already
    cached its path: the labels keep what they showed, and as long as the
    polls read that same icon the image is not opened again and the icon
    label keeps what it showed, even once the image would load. *)
Theorem unloaded_icon_is_not_retried rt cfg world1 world2 s r1 r2 p :
  outcome (extract rt cfg world1) s = Ok r1 ->
  icon2 r1 = Some p ->
  icon s <> p ->
  image_ok world1 p = false ->
  outcome (extract rt cfg world2) (set_icon p s) = Ok r2 ->
  icon2 r2 = Some p ->
  final (get_weather rt cfg world1) s = set_icon p s /\
  icon_lbl (final (get_weather rt cfg world2) (set_icon p s)) = icon_lbl s /\
  filter is_open (trace (get_weather rt cfg world2) (set_icon p s)) = [].
Proof.
  intros H1 Hp1 Hne Hok H2 Hp2.
  assert (final (get_weather rt cfg world1) s = set_icon p s) as Hs1.
  { rewrite get_weather_final. unfold final.
    rewrite (get_weather_try_final _ _ _ _ _ H1).
    unfold final. by rewrite (redraw_icon_unloaded world1 r1 s p). }
  split; [done|].
  assert (icon2 r2 = Some (icon (set_icon p s))) as Hcached by done.
  destruct (redraw_icon_cached world2 r2 _ Hcached) as (Hout & _ & Hlbl & Hquiet).
  pose proof (get_weather_try_final rt cfg world2 _ r2 H2) as Htry.
  rewrite Hout in Htry. split.
  - rewrite get_weather_final. unfold final at 1. by rewrite Htry.
  - unfold trace. rewrite (get_weather_ok _ _ _ _ _ _ Htry). simpl.
    rewrite !filter_app, extract_opens. simpl.
    rewrite app_nil_r. clear -Hquiet.
    induction Hquiet as [|ev tr Hev _ IH]; [done|].
    rewrite filter_cons. destruct (decide (is_open ev)) as [Hd|]; [|done].
    by rewrite Hev in Hd.
Qed.

Lemma unloaded_icon_is_not_retried_witness :
  final (get_weather Sample.rt constants (Sample.without_assets Sample.clouds))
        Weather.init = set_icon "assets/PartlySunny.png" Weather.init /\
  icon_lbl (final (get_weather Sample.rt constants
                     (Sample.answering Sample.clouds None))
                  (set_icon "assets/PartlySunny.png" Weather.init)) = None.
Proof.
  pose proof (unloaded_icon_is_not_retried Sample.rt constants
                (Sample.without_assets Sample.clouds)
                (Sample.answering Sample.clouds None)
                Weather.init Sample.clouds_reading Sample.clouds_reading
                "assets/PartlySunny.png") as H.
  destruct H as (H1 & H2 & _).
  - vm_compute. reflexivity.
  - reflexivity.
  - simpl. discriminate.
  - reflexivity.
  - vm_compute. reflexivity.
  - reflexivity.
  - split; [exact H1|exact H2].
Defined.

Section Geolocation.
Variables (rt : Runtime) (cfg : Config) (world : World).

(** The URL of the geolocation request for the address [ip]. *)
Lemma locate_unset_run s ip :
  LATITUDE cfg = None -> LONGITUDE cfg = None ->
  outcome (get_ip world) s = Ok ip ->
  locate rt cfg world s =
    match http world ("https://api.freegeoip.app/json" +:+ continuation +:+
                      "/" +:+ str rt ip +:+ "?apikey=" +:+ GEOIP_API_TOKEN cfg) with
    | None =>
        (Raise RequestException, s,
         (trace (get_ip world) s ++
          [Get ("https://api.freegeoip.app/json" +:+ continuation +:+
                "/" +:+ str rt ip +:+ "?apikey=" +:+ GEOIP_API_TOKEN cfg)])%list)
    | Some request =>
        match
          rbind (match body request with
                 | Some j => Ok j
                 | None => Raise JSONDecodeError
                 end) (fun actual_location_obj =>
          rbind (getitem actual_location_obj "latitude") (fun lat =>
          rbind (getitem actual_location_obj "longitude") (fun lon =>
          rbind (getitem actual_location_obj "city") (fun city =>
          rbind (getitem actual_location_obj "region_code") (fun region_code =>
          Ok (WEATHER_API_URL cfg +:+ "?lat=" +:+ str rt lat +:+ "&" +:+
              continuation +:+ "lon=" +:+ str rt lon +:+ "&lang=" +:+
              WEATHER_LANG cfg +:+ "&appid=" +:+ WEATHER_API_TOKEN cfg,
              Some (str rt city +:+ ", " +:+ str rt region_code)))))))
        with
        | Ok found =>
            (Ok found, s,
             (trace (get_ip world) s ++
              [Get ("https://api.freegeoip.app/json" +:+ continuation +:+
                    "/" +:+ str rt ip +:+ "?apikey=" +:+ GEOIP_API_TOKEN cfg)])%list)
        | Raise e =>
            (Raise e, s,
             (trace (get_ip world) s ++
              [Get ("https://api.freegeoip.app/json" +:+ continuation +:+
                    "/" +:+ str rt ip +:+ "?apikey=" +:+ GEOIP_API_TOKEN cfg)])%list)
        end
    end.
Proof.
  intros Hlat Hlon Hip. unfold locate. rewrite Hlat, Hlon. simpl.
  assert (get_ip world s = (Ok ip, s, trace (get_ip world) s)) as Hrun.
  { rewrite (run_split (get_ip world) s) at 1.
    by rewrite Hip, get_ip_reads_only. }
  rewrite run_bind, Hrun. rewrite run_bind, requests_get_run.
  match goal with
  | |- context [http world ?u] => destruct (http world u) as [[[obj|]]|]
  end; [|done..].
  run. simpl.
  destruct (getitem obj "latitude"); simpl; [|done].
  destruct (getitem obj "longitude"); simpl; [|done].
  destruct (getitem obj "city"); simpl; [|done].
  destruct (getitem obj "region_code"); simpl; done.
Qed.
End Geolocation.

(** X10: on the geolocation path the answer of the geolocation service
    must have all four keys the code reads, the city and the region
    included though neither is shown: when one is missing the poll fails
    before any weather request and leaves the frame as it was. *)
Theorem geolocation_needs_all_keys rt cfg world s ip obj key :
  LATITUDE cfg = None -> LONGITUDE cfg = None ->
  outcome (get_ip world) s = Ok ip ->
  http world ("https://api.freegeoip.app/json" +:+ continuation +:+
              "/" +:+ str rt ip +:+ "?apikey=" +:+ GEOIP_API_TOKEN cfg) =
    Some (Response (Some obj)) ->
  key ∈ ["latitude"; "longitude"; "city"; "region_code"] ->
  getitem obj key = Raise KeyError ->
  outcome (get_weather_try rt cfg world) s = Raise KeyError /\
  final (get_weather rt cfg world) s = s /\
  filter is_get (trace (get_weather rt cfg world) s) =
    (filter is_get (trace (get_ip world) s) ++
     [Get ("https://api.freegeoip.app/json" +:+ continuation +:+
           "/" +:+ str rt ip +:+ "?apikey=" +:+ GEOIP_API_TOKEN cfg)])%list.
Proof.
  intros Hlat Hlon Hip Hhttp Hkey Hmissing.
  pose proof (locate_unset_run rt cfg world s ip Hlat Hlon Hip) as Hloc.
  rewrite Hhttp in Hloc. simpl in Hloc.
  assert (exists e,
            locate rt cfg world s =
              (Raise e, s,
               (trace (get_ip world) s ++
                [Get ("https://api.freegeoip.app/json" +:+ continuation +:+
                      "/" +:+ str rt ip +:+ "?apikey=" +:+
                      GEOIP_API_TOKEN cfg)])%list) /\
            e = KeyError) as (e & Hraise & ->).
  { assert (forall k e, getitem obj k = Raise e -> e = KeyError) as Honly.
    { intros k e Hk. destruct obj; simpl in *; try done.
      destruct (assoc key d); [done|].
      destruct (assoc k d); by simplify_eq. }
    assert (forall r url,
              locate rt cfg world s = (r, s, url) -> r = Raise KeyError ->
              exists e, locate rt cfg world s = (Raise e, s, url) /\ e = KeyError)
      as Hfin.
    { intros r url H ->. by exists KeyError. }
    repeat (apply elem_of_cons in Hkey as [->|Hkey]);
      [| | | |by apply elem_of_nil in Hkey].
    - rewrite Hmissing in Hloc. simpl in Hloc. eapply Hfin; [exact Hloc|done].
    - destruct (getitem obj "latitude") eqn:E1;
        [|apply Honly in E1 as ->; simpl in Hloc; eapply Hfin; [exact Hloc|done]].
      simpl in Hloc. rewrite Hmissing in Hloc. simpl in Hloc.
      eapply Hfin; [exact Hloc|done].
    - destruct (getitem obj "latitude") eqn:E1;
        [|apply Honly in E1 as ->; simpl in Hloc; eapply Hfin; [exact Hloc|done]].
      destruct (getitem obj "longitude") eqn:E2;
        [|apply Honly in E2 as ->; simpl in Hloc; eapply Hfin; [exact Hloc|done]].
      simpl in Hloc. rewrite Hmissing in Hloc. simpl in Hloc.
      eapply Hfin; [exact Hloc|done].
    - destruct (getitem obj "latitude") eqn:E1;
        [|apply Honly in E1 as ->; simpl in Hloc; eapply Hfin; [exact Hloc|done]].
      destruct (getitem obj "longitude") eqn:E2;
        [|apply Honly in E2 as ->; simpl in Hloc; eapply Hfin; [exact Hloc|done]].
      destruct (getitem obj "city") eqn:E3;
        [|apply Honly in E3 as ->; simpl in Hloc; eapply Hfin; [exact Hloc|done]].
      simpl in Hloc. rewrite Hmissing in Hloc. simpl in Hloc.
      eapply Hfin; [exact Hloc|done]. }
  assert (extract rt cfg world s = (Raise KeyError, s,
            (trace (get_ip world) s ++
             [Get ("https://api.freegeoip.app/json" +:+ continuation +:+
                   "/" +:+ str rt ip +:+ "?apikey=" +:+
                   GEOIP_API_TOKEN cfg)])%list)) as Hex.
  { unfold extract. by apply bind_raise. }
  assert (get_weather_try rt cfg world s = (Raise KeyError, s,
            (trace (get_ip world) s ++
             [Get ("https://api.freegeoip.app/json" +:+ continuation +:+
                   "/" +:+ str rt ip +:+ "?apikey=" +:+
                   GEOIP_API_TOKEN cfg)])%list)) as Htry.
  { unfold get_weather_try. by apply bind_raise. }
  unfold outcome, final, trace at 1. rewrite Htry.
  rewrite (get_weather_raise _ _ _ _ _ _ _ Htry). simpl.
  split; [done|]. split; [done|].
  rewrite !filter_app. simpl. by rewrite app_nil_r.
Qed.

Lemma geolocation_needs_all_keys_witness :
  outcome (get_weather_try Sample.rt Sample.unset
             (Sample.answering (JDict [("ip", JStr "203.0.113.7");
                                       ("latitude", JInt (-27));
                                       ("longitude", JInt (-55))]) None))
          Weather.init = Raise KeyError.
Proof.
  eapply (geolocation_needs_all_keys Sample.rt Sample.unset
            (Sample.answering (JDict [("ip", JStr "203.0.113.7");
                                      ("latitude", JInt (-27));
                                      ("longitude", JInt (-55))]) None)
            Weather.init (JStr "203.0.113.7") _ "city").
  - reflexivity.
  - reflexivity.
  - vm_compute. reflexivity.
  - reflexivity.
  - set_solver.
  - reflexivity.
Defined.

End WeatherMore.

(** ** The news widget, whatever the feed holds *)

Module NewsMore.
Import News NewsFacts.

Lemma emits_for_each {S A} P (xs : list A) (body : A -> M S unit) :
  (forall x, emits P (body x)) -> emits P (for_each xs body).
Proof.
  intros Hbody. induction xs as [|x xs IH]; [apply emits_ret|].
  simpl. by apply (emits_bind (S:=S)).
Qed.

Section Loops.
Variables (cfg : Config) (world : World).

(** The loop over the posts when the newspaper icon loads: it appends the
    rows of the posts up to the first one without a title. *)
Lemma build_loaded posts ws :
  image_ok world "assets/Newspaper.png" = true ->
  final (for_each posts
           (fun post =>
              event_name ← post_title post;
              NewsHeadline_init world event_name;;
              pack)) {| headlines_container := ws |} =
    {| headlines_container := (ws ++ List.map row (titled_prefix posts))%list |}.
Proof.
  intros Hok. revert ws. induction posts as [|[[x|]] posts IH]; intros ws.
  - simpl. by rewrite app_nil_r.
  - cbn [for_each titled_prefix title List.map]. unfold final at 1.
    etrans;
      [exact (f_equal (fun run => run.1.2)
                (run_seq (S:=t) _ _ _ _ _ _ _ _ _
                   (build_one world x ws Hok) (run_split _ _)))|].
    cbn [fst snd]. rewrite IH. by rewrite <- app_assoc.
  - simpl. by rewrite app_nil_r.
Qed.

(** The loop over the posts when the newspaper icon does not load: it packs
    nothing, and leaves behind at most the frame of one row. *)
Lemma build_unloaded posts ws :
  image_ok world "assets/Newspaper.png" = false ->
  exists left_behind,
    final (for_each posts
             (fun post =>
                event_name ← post_title post;
                NewsHeadline_init world event_name;;
                pack)) {| headlines_container := ws |} =
      {| headlines_container := (ws ++ left_behind)%list |} /\
    length left_behind <= 1 /\
    List.filter packed left_behind = [].
Proof.
  intros Hok. destruct posts as [|[[x|]] posts].
  - exists []. unfold final. simpl. rewrite app_nil_r. repeat split; auto.
  - exists [{| icon_lbl := None; event_name_lbl := None; packed := false |}].
    cbn [for_each]. unfold NewsHeadline_init, pack, post_title, new_frame.
    run. simpl. rewrite Hok. simpl. repeat split; auto.
  - exists []. unfold final. simpl. rewrite app_nil_r. repeat split; auto.
Qed.

(** The [try] of a poll, up to its loop over the posts. *)
Lemma get_headlines_try_run ws :
  get_headlines_try cfg world {| headlines_container := ws |} =
  match feed world (headlines_url cfg) with
  | None =>
      (Raise OSError, {| headlines_container := [] |},
       (List.repeat Destroy (length ws) ++ [Parse (headlines_url cfg)])%list)
  | Some posts =>
      let '(r, s', tr) :=
        for_each (take 5 posts)
          (fun post =>
             event_name ← post_title post;
             NewsHeadline_init world event_name;;
             pack) {| headlines_container := [] |} in
      (r, s', (List.repeat Destroy (length ws) ++
               [Parse (headlines_url cfg)] ++ tr)%list)
  end.
Proof.
  unfold get_headlines_try.
  rewrite run_bind. cbn [gets]. rewrite run_bind, destroy_all.
  fold (headlines_url cfg). rewrite run_bind.
  unfold feedparser_parse at 1. rewrite run_bind. cbn [emit].
  destruct (feed world (headlines_url cfg)) as [posts|]; [|done].
  cbn [mret M_ret ret]. simpl.
  by destruct (for_each _ _ _) as [[??]?].
Qed.

(** The state a poll ends in. *)
Lemma get_headlines_final s :
  final (get_headlines cfg world) s =
  match feed world (headlines_url cfg) with
  | None => {| headlines_container := [] |}
  | Some posts =>
      final (for_each (take 5 posts)
               (fun post =>
                  event_name ← post_title post;
                  NewsHeadline_init world event_name;;
                  pack)) {| headlines_container := [] |}
  end.
Proof.
  destruct s as [ws]. unfold final, get_headlines. run.
  rewrite get_headlines_try_run.
  destruct (feed world (headlines_url cfg)) as [posts|]; [|done].
  by destruct (for_each _ _ _) as [[[[]|e] s'] tr].
Qed.

Lemma get_headlines_try_emits P :
  P Destroy -> P Pack -> (forall url, P (Parse url)) ->
  (forall path, P (Open path)) ->
  emits P (get_headlines_try cfg world).
Proof.
  intros. unfold get_headlines_try.
  apply emits_bind; [apply emits_gets|]. intros children.
  apply emits_bind.
  { apply emits_for_each. intros w. unfold destroy. repeat emits_step. }
  intros _. apply emits_bind.
  { unfold feedparser_parse. repeat emits_step. }
  intros entries. apply emits_for_each. intros post.
  unfold post_title, NewsHeadline_init, pack, new_frame. repeat emits_step.
Qed.

Lemma get_headlines_runs s :
  outcome (get_headlines cfg world) s = Ok tt /\
  timers (trace (get_headlines cfg world) s) = [After 600000 "get_headlines"].
Proof.
  pose proof (get_headlines_try_emits not_after
                ltac:(done) ltac:(done) ltac:(done) ltac:(done) s) as He.
  unfold outcome, trace in *. unfold get_headlines. run.
  destruct (get_headlines_try cfg world s) as [[[[]|e] s'] tr]; simpl in *.
  - split; [done|]. unfold timers. rewrite List.filter_app.
    fold (timers tr). by rewrite timers_none.
  - split; [done|]. unfold timers. rewrite !List.filter_app.
    fold (timers tr). by rewrite timers_none.
Qed.
End Loops.

(** X11: when the feed is fetched, the rows on screen after the poll are
    those of the first five posts up to the first one that has no title,
    where the poll stops with an error; and no row at all when the
    newspaper icon does not load. *)
Theorem rows_up_to_first_untitled cfg world s posts :
  feed world (headlines_url cfg) = Some posts ->
  displayed (final (get_headlines cfg world) s) =
    if image_ok world "assets/Newspaper.png"
    then List.map (fun name => (Some (Photo "assets/Newspaper.png" 25 25), Some name))
           (titled_prefix (take 5 posts))
    else [].
Proof.
  intros Hfeed. rewrite get_headlines_final, Hfeed.
  destruct (image_ok world "assets/Newspaper.png") eqn:Hok.
  - rewrite build_loaded by done. simpl. apply displayed_rows.
  - destruct (build_unloaded world (take 5 posts) [] Hok)
      as (left_behind & -> & _ & Hnone).
    unfold displayed. simpl. by rewrite Hnone.
Qed.

Lemma rows_up_to_first_untitled_witness :
  displayed (final (get_headlines constants
                      (Sample.answering Sample.clouds
                         (Some [Entry (Some "a"); Entry (Some "b"); Entry None;
                                Entry (Some "d")])))
                   (Sample.after_headlines ["x"; "y"])) =
    [(Some (Photo "assets/Newspaper.png" 25 25), Some "a");
     (Some (Photo "assets/Newspaper.png" 25 25), Some "b")].
Proof.
  exact (rows_up_to_first_untitled constants
           (Sample.answering Sample.clouds
              (Some [Entry (Some "a"); Entry (Some "b"); Entry None;
                     Entry (Some "d")]))
           (Sample.after_headlines ["x"; "y"]) _ eq_refl).
Defined.

(** X12: the headlines are replaced, not merged: the children of the
    container after a poll are the same whatever it held before, and they
    are never more than five. *)
Theorem headlines_replaced cfg world s1 s2 :
  final (get_headlines cfg world) s1 = final (get_headlines cfg world) s2 /\
  length (headlines_container (final (get_headlines cfg world) s1)) <= 5.
Proof.
  split; [by rewrite !get_headlines_final|].
  rewrite get_headlines_final.
  destruct (feed world (headlines_url cfg)) as [posts|]; [|simpl; lia].
  destruct (image_ok world "assets/Newspaper.png") eqn:Hok.
  - rewrite build_loaded by done. simpl. rewrite List.length_map.
    assert (forall l, length (titled_prefix l) <= length l) as Hle.
    { induction l as [|[[x|]] l IH]; simpl; lia. }
    specialize (Hle (take 5 posts)). rewrite length_take in Hle. lia.
  - destruct (build_unloaded world (take 5 posts) [] Hok)
      as (left_behind & -> & Hlen & _).
    simpl. lia.
Qed.

(** X13: a poll of the news never raises and sets exactly one timer, for
    the next poll 600000 ms later, whether the feed was fetched, a post had
    no title or an image did not load. *)
Theorem get_headlines_always_reschedules cfg world s :
  outcome (get_headlines cfg world) s = Ok tt /\
  timers (trace (get_headlines cfg world) s) = [After 600000 "get_headlines"].
Proof. apply get_headlines_runs. Qed.

End NewsMore.

(** ** The calendar widget *)

Module CalendarMore.
Import Calendar.

Lemma destroy_all_events ws :
  for_each ws destroy {| calendar_event_container := ws |} =
    (Ok tt, {| calendar_event_container := [] |},
     List.repeat Destroy (length ws)).
Proof.
  induction ws as [|w ws IH]; [done|].
  simpl. unfold destroy at 1. run. simpl.
  rewrite decide_True by done. by rewrite IH.
Qed.

Lemma get_events_run s :
  get_events s =
    (Ok tt,
     {| calendar_event_container :=
          [{| event_name_lbl := "Event 1"; packed := true |}] |},
     (List.repeat Destroy (length (calendar_event_container s)) ++ [Pack])%list).
Proof.
  destruct s as [ws]. unfold get_events.
  rewrite run_bind. cbn [gets]. rewrite run_bind, destroy_all_events.
  unfold CalendarEvent_init, pack. run. simpl. done.
Qed.

(** X14: [get_events] replaces whatever the container holds by one packed
    event named "Event 1"; calling it again changes nothing more; and,
    unlike the polls of the other widgets, it sets no timer. *)
Theorem get_events_one_event s :
  calendar_event_container (final get_events s) =
    [{| event_name_lbl := "Event 1"; packed := true |}] /\
  final get_events (final get_events s) = final get_events s /\
  outcome get_events s = Ok tt /\
  timers (trace get_events s) = [].
Proof.
  unfold final, outcome, trace. rewrite !get_events_run. simpl.
  repeat split. unfold timers. rewrite List.filter_app. simpl.
  rewrite app_nil_r. induction (length (calendar_event_container s)); done.
Qed.

End CalendarMore.

(** ** The window and the main loop *)

Module WindowMore.
Import FullscreenWindow Mainloop.

Lemma zoom_run {S T A} (get : T -> S) (set : S -> T -> T) (c : M S A) (w : T) :
  zoom get set c w = (outcome c (get w), set (final c (get w)) w, trace c (get w)).
Proof. unfold zoom, outcome, final, trace. by destruct (c (get w)) as [[??]?]. Qed.

Section Loop.
Variables (rt : Runtime) (cfg : Config).



(** The construction of the window, spelled out, where the locale can be
    set. *)
Lemma init_run world lc :
  locale_supported cfg world = true ->
  __init__ rt cfg world (blank lc) =
    (Ok tt,
     {| state := false; fullscreen := false;
        bindings := [("<Escape>", "end_fullscreen");
                     ("<Return>", "toggle_fullscreen")];
        clock := final (Clock.tick cfg world) (Clock.init lc);
        weather := final (Weather.get_weather rt cfg world) Weather.init;
        news := final (News.get_headlines cfg world) News.init |},
     (trace (Clock.tick cfg world) (Clock.init lc) ++
      trace (Weather.get_weather rt cfg world) Weather.init ++
      trace (News.get_headlines cfg world) News.init)%list).
Proof.
  intros Hl. unfold __init__, bind_key.
  assert (outcome (Clock.tick cfg world) (Clock.init lc) = Ok tt) as Hc.
  { unfold outcome. rewrite ClockFacts.tick_run. revert Hl.
    unfold locale_supported, formatted.
    by destruct (locale_name world (UI_LOCALE cfg)). }
  destruct (WeatherFacts.get_weather_never_raises rt cfg world Weather.init)
    as [[] Hw].
  assert (outcome (News.get_headlines cfg world) News.init = Ok tt) as Hn.
  { apply NewsMore.get_headlines_runs. }
  cbv [mbind M_bind bind modify set_state].
  rewrite !zoom_run. simpl. rewrite Hc. simpl. rewrite Hw. simpl.
  rewrite Hn. simpl. by rewrite ?app_nil_r, <- ?app_assoc.
Qed.

(** The construction of the window where the locale cannot be set: the
    clock raises out of the constructor, and no other widget is made. *)
Lemma init_raise world lc :
  locale_supported cfg world = false ->
  __init__ rt cfg world (blank lc) =
    (Raise LocaleError,
     {| state := false; fullscreen := false;
        bindings := [("<Escape>", "end_fullscreen");
                     ("<Return>", "toggle_fullscreen")];
        clock := Clock.init lc;
        weather := Weather.init;
        news := News.init |},
     []).
Proof.
  intros Hl. unfold __init__, bind_key.
  assert (Clock.tick cfg world (Clock.init lc) =
            (Raise LocaleError, Clock.init lc, [])) as Hc.
  { rewrite ClockFacts.tick_run. revert Hl.
    unfold locale_supported, formatted.
    by destruct (locale_name world (UI_LOCALE cfg)). }
  cbv [mbind M_bind bind modify set_state].
  rewrite !zoom_run. unfold outcome, final, trace. simpl. by rewrite Hc.
Qed.

Lemma start_steady lc world : steady (start rt cfg lc world).
Proof.
  unfold start.
  destruct (locale_supported cfg world) eqn:Hl.
  - by rewrite init_run.
  - by rewrite init_raise.
Qed.


(** A callback leaves the keys and the state of the window alone. *)
Lemma callback_window world name w :
  bindings (callback rt cfg world name w).1.2 = bindings w /\
  state (callback rt cfg world name w).1.2 = state w /\
  fullscreen (callback rt cfg world name w).1.2 = fullscreen w.
Proof.
  unfold callback. repeat case_match; rewrite ?zoom_run; done.
Qed.


Lemma step_timer p world i :
  steady p ->
  steady (step rt cfg p (world, Timer i)) /\
  state (window (step rt cfg p (world, Timer i))) = state (window p).
Proof.
  intros Hp. pose proof Hp as (Hb & Hf). unfold step. simpl.
  destruct (pending p !! i) as [[| | | | | |ms name| |]|] eqn:Hi; try done.
  pose proof (callback_window world name (window p)) as (Hb' & Hs' & Hf').
  destruct (callback rt cfg world name (window p)) as [[r w''] tr].
  simpl in *. unfold steady. simpl. by rewrite Hb', Hs', Hf'.
Qed.

Lemma step_key p world sequence :
  steady p ->
  steady (step rt cfg p (world, KeyPress sequence)) /\
  state (window (step rt cfg p (world, KeyPress sequence))) =
    (if String.eqb sequence "<Escape>" then false
     else if String.eqb sequence "<Return>" then negb (state (window p))
     else state (window p)).
Proof.
  intros Hp. pose proof Hp as (Hb & Hf). unfold step. simpl. rewrite Hb. simpl.
  destruct (String.eqb sequence "<Escape>").
  - unfold handler, end_fullscreen. simpl. run. unfold steady. simpl.
    by rewrite Hb.
  - destruct (String.eqb sequence "<Return>").
    + unfold handler, toggle_fullscreen. simpl. run. unfold steady. simpl.
      by rewrite Hb.
    + done.
Qed.

Lemma step_steady p now : steady p -> steady (step rt cfg p now).
Proof.
  destruct now as [world [i|sequence]]; intros Hp.
  - by apply step_timer.
  - by apply step_key.
Qed.

Lemma mainloop_steady p run : steady p -> steady (mainloop rt cfg p run).
Proof.
  revert p. induction run as [|now run IH]; intros p Hp; [done|].
  simpl. apply IH. by apply step_steady.
Qed.



Lemma presses_cons sequence now run :
  presses sequence (now :: run) =
    if is_press sequence now then S (presses sequence run)
    else presses sequence run.
Proof. unfold presses. simpl. by destruct (is_press sequence now). Qed.

Lemma mainloop_state p run :
  steady p ->
  presses "<Escape>" run = 0 ->
  state (window (mainloop rt cfg p run)) =
    xorb (state (window p)) (Nat.odd (presses "<Return>" run)).
Proof.
  revert p. induction run as [|[world [i|sequence]] run IH]; intros p Hp Hesc.
  - simpl. by destruct (state (window p)).
  - rewrite presses_cons in *. cbn [foldl mainloop]. unfold is_press in *.
    simpl in Hesc. simpl.
    fold (mainloop rt cfg (step rt cfg p (world, Timer i)) run).
    rewrite IH; [|by apply step_steady|done].
    by rewrite (proj2 (step_timer p world i Hp)).
  - rewrite presses_cons in *. cbn [foldl mainloop]. unfold is_press in *.
    simpl in Hesc. simpl.
    fold (mainloop rt cfg (step rt cfg p (world, KeyPress sequence)) run).
    destruct (String.eqb sequence "<Escape>") eqn:He; [done|].
    rewrite IH; [|by apply step_steady|done].
    rewrite (proj2 (step_key p world sequence Hp)), He.
    destruct (String.eqb sequence "<Return>"); [|done].
    rewrite Nat.odd_succ, <- Nat.negb_odd.
    by destruct (state (window p)), (Nat.odd (presses "<Return>" run)).
Qed.

Lemma mainloop_app p run1 run2 :
  mainloop rt cfg p (run1 ++ run2) = mainloop rt cfg (mainloop rt cfg p run1) run2.
Proof. apply foldl_app. Qed.
End Loop.



(** X16: the window starts out of fullscreen; Escape leaves fullscreen,
    whatever the state; and after a run without Escape the window is in
    the state it was in if Return was pressed an even number of times, in
    the other state if not. Timers and other keys do not count. *)
Theorem return_toggles_escape_ends rt cfg lc world before now after :
  presses "<Escape>" after = 0 ->
  state (window (start rt cfg lc world)) = false /\
  state (window (mainloop rt cfg (start rt cfg lc world)
                   (before ++ [(now, KeyPress "<Escape>")]))) = false /\
  state (window (mainloop rt cfg (start rt cfg lc world) (before ++ after))) =
    xorb (state (window (mainloop rt cfg (start rt cfg lc world) before)))
         (Nat.odd (presses "<Return>" after)).
Proof.
  intros Hesc.
  pose proof (mainloop_steady rt cfg _ before (start_steady rt cfg lc world))
    as Hsteady.
  split; [|split].
  - unfold start. destruct (locale_supported cfg world) eqn:Hl.
    + by rewrite init_run.
    + by rewrite init_raise.
  - rewrite mainloop_app.
    change (mainloop rt cfg ?q [?x]) with (step rt cfg q x).
    by rewrite (proj2 (step_key rt cfg _ now "<Escape>" Hsteady)).
  - rewrite mainloop_app. by apply mainloop_state.
Qed.

Lemma return_toggles_escape_ends_witness :
  state (window (mainloop Sample.rt constants
                   (start Sample.rt constants "C" Sample.offline)
                   ([(Sample.offline, KeyPress "<Return>")] ++
                    [(Sample.offline, Timer 0);
                     (Sample.offline, KeyPress "<Return>");
                     (Sample.offline, KeyPress "<Return>")]))) = true.
Proof.
  pose proof (return_toggles_escape_ends Sample.rt constants "C" Sample.offline
                [(Sample.offline, KeyPress "<Return>")] Sample.offline
                [(Sample.offline, Timer 0);
                 (Sample.offline, KeyPress "<Return>");
                 (Sample.offline, KeyPress "<Return>")] eq_refl)
    as (_ & _ & H).
  rewrite H. vm_compute. reflexivity.
Defined.

End WindowMore.
